(** * BoloForms: field placement (client) and PDF annotation (server)

    A shallow embedding of the two pieces of the repository that carry
    logic:

    - [Client]: the field list kept by [PDFViewer.tsx] and the handlers that
      change it ([handleDragEnd], [handleResize], [handleDeleteField]),
      together with the resize gesture of [PlacedField.tsx];
    - [Server]: the controller [signPdf] of [pdfController.ts];
    - [Viewer]: what else [PDFViewer.tsx] does with the list (rendering per
      page, the drag overlay, the request of [handleSign], the button that
      opens the result);
    - [Earlier]: the field loop of the first version of the controller;
    - [Session]: the client handlers event by event, so that a pointer move
      of a resize gesture can come after other handlers have run;
    - [WithFont]: the loop body of the controller with a font that may
      refuse a text.

    JavaScript numbers are modelled by exact rationals ([Q]); rounding,
    infinities and NaN are outside the model.  Page numbers are integers
    ([Z]).  The drag-and-drop library, the PDF library, the hash and the
    base64 codec are collaborators: what they compute is a parameter. *)

From Stdlib Require Import List String Ascii ZArith QArith Qminmax Lqa Lia Bool.
Import ListNotations.

Open Scope Q_scope.

(** ** The field placement model *)

Module Client.

(** [FieldType] of [Sidebar.tsx]. *)
Inductive FieldType : Set := text | signature | date | image | radio.

(** [FieldData] of [PDFViewer.tsx]; geometry is in percent of the page. *)
Record FieldData : Set := mkField {
  id : string;
  type : FieldType;
  x : Q;
  y : Q;
  width : Q;
  height : Q;
  page : Z
}.

(** A client rectangle as the drag library reports it. *)
Record ClientRect : Set := mkRect {
  left : Q;
  top : Q;
  rectWidth : Q;
  rectHeight : Q
}.

(** The dragged item: [active.id], [active.data.current] and
    [active.rect.current.translated].  A missing [isTool] or [isPlaced]
    is falsy, hence [false]. *)
Record Active : Set := mkActive {
  activeId : string;
  isTool : bool;
  isPlaced : bool;
  activeType : FieldType;
  translated : option ClientRect
}.

(** The droppable under the pointer.  Droppables are the pages only, with
    id [page-N]; [parseInt(pageId.split('-')[1])] gives [N] back, so the
    id is kept as the number it encodes. *)
Record Over : Set := mkOver {
  overPage : Z;
  overRect : ClientRect
}.

Record DragEndEvent : Set := mkDragEnd {
  active : Active;
  over : option Over
}.

Definition defaultWidth : Q := 20.
Definition defaultHeight : Q := 5.

(** Pointer position in percent of the page under it. *)
Definition percentX (activeRect overRect : ClientRect) : Q :=
  let relativeX := left activeRect - left overRect in
  (relativeX / rectWidth overRect) * 100.

Definition percentY (activeRect overRect : ClientRect) : Q :=
  let relativeY := top activeRect - top overRect in
  (relativeY / rectHeight overRect) * 100.

(** The object built in the [isTool] branch; [newId] stands for the
    string made from the clock and the random generator. *)
Definition newField (newId : string) (ty : FieldType) (pageNumber : Z)
    (pX pY : Q) : FieldData :=
  let constrainedX := Qmax 0 (Qmin (100 - defaultWidth) pX) in
  let constrainedY := Qmax 0 (Qmin (100 - defaultHeight) pY) in
  {| id := newId; type := ty;
     x := constrainedX; y := constrainedY;
     width := defaultWidth; height := defaultHeight;
     page := pageNumber |}.

(** The callback mapped over the list in the [isPlaced] branch. *)
Definition movedField (target : string) (pageNumber : Z) (pX pY : Q)
    (f : FieldData) : FieldData :=
  if String.eqb (id f) target then
    let constrainedX := Qmax 0 (Qmin (100 - width f) pX) in
    let constrainedY := Qmax 0 (Qmin (100 - height f) pY) in
    {| id := id f; type := type f;
       x := constrainedX; y := constrainedY;
       width := width f; height := height f;
       page := pageNumber |}
  else f.

Definition handleDragEnd (newId : string) (event : DragEndEvent)
    (prev : list FieldData) : list FieldData :=
  match over event with
  | None => prev
  | Some ov =>
    match translated (active event) with
    | None => prev
    | Some activeRect =>
      let pX := percentX activeRect (overRect ov) in
      let pY := percentY activeRect (overRect ov) in
      if isTool (active event) then
        prev ++ [newField newId (activeType (active event)) (overPage ov) pX pY]
      else if isPlaced (active event) then
        map (movedField (activeId (active event)) (overPage ov) pX pY) prev
      else prev
    end
  end.

Definition handleResize (target : string) (w h : Q)
    (prev : list FieldData) : list FieldData :=
  map (fun f =>
         if String.eqb (id f) target then
           {| id := id f; type := type f; x := x f; y := y f;
              width := w; height := h; page := page f |}
         else f) prev.

Definition handleDeleteField (target : string)
    (prev : list FieldData) : list FieldData :=
  filter (fun f => negb (String.eqb (id f) target)) prev.

(** What [onResizePointerDown] reads when the handle is pressed: the
    pointer position and the size of the page element. *)
Record ResizeStart : Set := mkStart {
  startX : Q;
  startY : Q;
  parentWidth : Q;
  parentHeight : Q
}.

(** [onPointerMove]: the width and height passed to [onResize].  [props]
    are the properties the component was rendered with. *)
Definition onPointerMove (props : FieldData) (st : ResizeStart)
    (clientX clientY : Q) : Q * Q :=
  let deltaX := clientX - startX st in
  let deltaY := clientY - startY st in
  let deltaWidthPc := (deltaX / parentWidth st) * 100 in
  let deltaHeightPc := (deltaY / parentHeight st) * 100 in
  let maxWidth := 100 - x props in
  let maxHeight := 100 - y props in
  let newWidth := Qmin maxWidth (Qmax 5 (width props + deltaWidthPc)) in
  let newHeight := Qmin maxHeight (Qmax 2 (height props + deltaHeightPc)) in
  (newWidth, newHeight).

(** One resize gesture on the component of [props]: every pointer move
    calls [onResize], which is [handleResize], with the properties
    captured at pointer-down. *)
Fixpoint resizeMoves (props : FieldData) (st : ResizeStart)
    (moves : list (Q * Q)) (prev : list FieldData) : list FieldData :=
  match moves with
  | [] => prev
  | (cx, cy) :: rest =>
    let '(w, h) := onPointerMove props st cx cy in
    resizeMoves props st rest (handleResize (id props) w h prev)
  end.

(** The user actions that change the list.  [Resize i] is a gesture on the
    handle of the component rendered for the [i]-th field. *)
Inductive Action : Set :=
| DragEnd (newId : string) (event : DragEndEvent)
| Resize (i : nat) (st : ResizeStart) (moves : list (Q * Q))
| Delete (target : string).

Definition step (prev : list FieldData) (a : Action) : list FieldData :=
  match a with
  | DragEnd newId event => handleDragEnd newId event prev
  | Resize i st moves =>
    match nth_error prev i with
    | Some props => resizeMoves props st moves prev
    | None => prev
    end
  | Delete target => handleDeleteField target prev
  end.

(** The list starts empty ([useState([])]). *)
Definition run (actions : list Action) : list FieldData :=
  fold_left step actions [].

(** True when the event takes the [isTool] branch, that is when [newId]
    is consumed. *)
Definition places (event : DragEndEvent) : bool :=
  match over event, translated (active event) with
  | Some _, Some _ => isTool (active event)
  | _, _ => false
  end.


(** The bounds the handlers actually maintain: the minimum size too. *)
Definition wellSized (f : FieldData) : Prop :=
  0 <= x f /\ 0 <= y f /\ 5 <= width f /\ 2 <= height f /\
  x f + width f <= 100 /\ y f + height f <= 100.

(** *** A small session

    A text tool dropped near the right edge of a 600 by 800 page, the
    field made narrower and taller, then dragged towards the bottom. *)

Definition pageRect : ClientRect :=
  {| left := 0; top := 0; rectWidth := 600; rectHeight := 800 |}.

Definition toolDrop : DragEndEvent :=
  {| active := {| activeId := "tool-text"; isTool := true; isPlaced := false;
                  activeType := text;
                  translated := Some (mkRect 570 40 120 40) |};
     over := Some {| overPage := 1; overRect := pageRect |} |}.

Definition fieldDrag : DragEndEvent :=
  {| active := {| activeId := "field-1"; isTool := false; isPlaced := true;
                  activeType := text;
                  translated := Some (mkRect 300 790 60 80) |};
     over := Some {| overPage := 2; overRect := pageRect |} |}.

Definition handlePress : ResizeStart :=
  {| startX := 600; startY := 80; parentWidth := 600; parentHeight := 800 |}.

Definition session : list Action :=
  [DragEnd "field-1" toolDrop;
   Resize 0 handlePress [(480, 120); (30, 160)];
   DragEnd "field-2" fieldDrag].

End Client.

(** ** The PDF annotation renderer *)

Module Server.

(** A field as it arrives in the request body.  [type] is whatever string
    the client sent; [content] may be missing. *)
Record Field : Set := mkField {
  id : string;
  type : string;
  x : Q;
  y : Q;
  width : Q;
  height : Q;
  page : Z;
  content : option string
}.

(** [if (v)] on an optional string: [undefined] and the empty string are
    falsy. *)
Definition truthy (v : option string) : bool :=
  match v with
  | Some s => negb (String.eqb s "")
  | None => false
  end.

(** The string held by a value that passed the test above. *)
Definition stringOf (v : option string) : string :=
  match v with
  | Some s => s
  | None => ""
  end.

Definition startsWith (s pre : string) : bool := String.prefix pre s.

Record Color : Set := rgb { red : Q; green : Q; blue : Q }.

(** An embedded image; the library knows its pixel size. *)
Record PDFImage : Set := mkImage { imageWidth : Q; imageHeight : Q }.

(** One drawing call on a page, with the options the controller passes. *)
Inductive Mark : Set :=
| DrawImage (img : PDFImage) (px py w h : Q)
| DrawRectangle (px py w h : Q) (borderColor : Color) (borderWidth : Q)
    (fill : option (Color * Q))
| DrawText (s : string) (px py size : Q)
| DrawEllipse (px py xScale yScale : Q) (borderColor : Color)
    (borderWidth : Q) (color : Color) (opacity : Q).

(** A page: its size and the marks drawn on it so far, oldest first. *)
Record PDFPage : Set := mkPage {
  pageWidth : Q;
  pageHeight : Q;
  marks : list Mark
}.

Definition Buffer : Set := list Byte.byte.

(** A computation that may throw. *)
Inductive Outcome (A : Type) : Type :=
| Done (a : A)
| Thrown (message : string).
Arguments Done {A} a.
Arguments Thrown {A} message.

Definition bind {A B : Type} (m : Outcome A) (k : A -> Outcome B) : Outcome B :=
  match m with
  | Done a => k a
  | Thrown e => Thrown e
  end.

(** The destructured request body; [pdfId] and [signatures] are never
    read. *)
Record SignBody : Set := mkBody {
  pdfBase64 : option string;
  fields : option (list Field)
}.

(** [req.body] is an object, or a string still to be parsed. *)
Inductive Body : Set :=
| BodyObject (b : SignBody)
| BodyString (s : string).

(** What the controller calls and does not define: the PDF library, the
    hash, the codecs and the file system.  [None] and [Thrown] stand for
    a call that throws. *)
Record Library : Type := mkLibrary {
  jsonParse : string -> option SignBody;
  base64Decode : string -> Buffer;
  base64Encode : Buffer -> string;
  sampleFile : option Buffer;
  blankPdf : Buffer;
  sha256Hex : Buffer -> string;
  load : Buffer -> Outcome (list PDFPage);
  save : list PDFPage -> Buffer;
  embedPng : string -> option PDFImage;
  embedJpg : string -> option PDFImage;
  scaleToFit : PDFImage -> Q -> Q -> Q * Q
}.

(** The box of a field in points: [x], [y], [wPoints], [hPoints]. *)
Record Box : Set := mkBox { bx : Q; by_ : Q; wPoints : Q; hPoints : Q }.

Definition pointBox (field : Field) (pg : PDFPage) : Box :=
  let pageWidth := pageWidth pg in
  let pageHeight := pageHeight pg in
  let x := (x field / 100) * pageWidth in
  let hPoints := (height field / 100) * pageHeight in
  let wPoints := (width field / 100) * pageWidth in
  let y := pageHeight - ((y field / 100) * pageHeight) - hPoints in
  {| bx := x; by_ := y; wPoints := wPoints; hPoints := hPoints |}.

(** The [try] block around the two embed calls: [None] when neither
    prefix matches or when the call throws. *)
Definition embedImage (lib : Library) (c : string) : option PDFImage :=
  if startsWith c "data:image/png" then embedPng lib c
  else if startsWith c "data:image/jpeg" || startsWith c "data:image/jpg"
  then embedJpg lib c
  else None.

(** The drawing calls made for one field, in order. *)
Definition drawField (lib : Library) (field : Field) (b : Box) : list Mark :=
  let x := bx b in
  let y := by_ b in
  let wPoints := wPoints b in
  let hPoints := hPoints b in
  if String.eqb (type field) "signature" || String.eqb (type field) "image" then
    if truthy (content field) then
      match embedImage lib (stringOf (content field)) with
      | Some image =>
        let imgDims := scaleToFit lib image wPoints hPoints in
        let xOffset := (wPoints - fst imgDims) / 2 in
        let yOffset := (hPoints - snd imgDims) / 2 in
        [DrawImage image (x + xOffset) (y + yOffset) (fst imgDims) (snd imgDims)]
      | None => []
      end
    else [DrawRectangle x y wPoints hPoints (rgb 1 0 0) 1 None]
  else if String.eqb (type field) "text" then
    DrawRectangle x y wPoints hPoints (rgb 0 0 1) 1 None ::
    (if truthy (content field) then
       let fontSize := 12 in
       [DrawText (stringOf (content field)) (x + 5) (y + hPoints - 15) fontSize]
     else [])
  else if String.eqb (type field) "date" then
    [DrawRectangle x y wPoints hPoints (rgb 0.96 0.62 0.04) 1
       (Some (rgb 0.96 0.62 0.04, 0.1))]
  else if String.eqb (type field) "radio" then
    let centerX := x + (wPoints / 2) in
    let centerY := y + (hPoints / 2) in
    let radius := Qmin wPoints hPoints / 2 in
    [DrawEllipse centerX centerY radius radius (rgb 0.92 0.28 0.6) 1
       (rgb 0.92 0.28 0.6) 0.1]
  else [].

Definition addMarks (pg : PDFPage) (ms : list Mark) : PDFPage :=
  {| pageWidth := pageWidth pg; pageHeight := pageHeight pg;
     marks := marks pg ++ ms |}.

(** The page object at index [n] receives the marks. *)
Fixpoint drawOn (pages : list PDFPage) (n : nat) (ms : list Mark) : list PDFPage :=
  match pages, n with
  | [], _ => []
  | pg :: rest, O => addMarks pg ms :: rest
  | pg :: rest, S k => pg :: drawOn rest k ms
  end.

(** [pages[pageIndex]]: [undefined] outside [0 .. length-1]. *)
Definition pageAt (pages : list PDFPage) (pageIndex : Z) : option PDFPage :=
  if (pageIndex <? 0)%Z then None else nth_error pages (Z.to_nat pageIndex).

Definition getSizeOfUndefined : string :=
  "Cannot read properties of undefined (reading 'getSize')".

(** The body of the loop over the fields. *)
Definition processField (lib : Library) (pages : list PDFPage)
    (field : Field) : Outcome (list PDFPage) :=
  let pageIndex := (page field - 1)%Z in
  if (pageIndex >=? Z.of_nat (List.length pages))%Z then Done pages
  else
    match pageAt pages pageIndex with
    | None => Thrown getSizeOfUndefined
    | Some pg =>
      Done (drawOn pages (Z.to_nat pageIndex)
              (drawField lib field (pointBox field pg)))
    end.

Fixpoint processFields (lib : Library) (pages : list PDFPage)
    (fieldList : list Field) : Outcome (list PDFPage) :=
  match fieldList with
  | [] => Done pages
  | field :: rest =>
    bind (processField lib pages field) (fun pages' =>
    processFields lib pages' rest)
  end.

(** The two answers: [res.json] with [success: true] (the [debug] entry is
    left out), or status 500 with [error] and [details]. *)
Inductive Response : Set :=
| Success (url originalHash signedHash : string)
| Failure500 (error details : string).

(** A string body that fails to parse stays a string, and destructuring a
    string yields [undefined] everywhere. *)
Definition parseBody (lib : Library) (reqBody : Body) : SignBody :=
  match reqBody with
  | BodyObject b => b
  | BodyString s =>
    match jsonParse lib s with
    | Some b => b
    | None => {| pdfBase64 := None; fields := None |}
    end
  end.

Definition fieldListOf (body : SignBody) : list Field :=
  match fields body with
  | Some l => l
  | None => []
  end.

Definition pdfBufferOf (lib : Library) (body : SignBody) : Buffer :=
  if truthy (pdfBase64 body) then base64Decode lib (stringOf (pdfBase64 body))
  else
    match sampleFile lib with
    | Some file => file
    | None => blankPdf lib
    end.

(** The annotated pages, or the exception that reaches the [catch]. *)
Definition annotate (lib : Library) (body : SignBody) : Outcome (list PDFPage) :=
  bind (load lib (pdfBufferOf lib body)) (fun pages =>
  processFields lib pages (fieldListOf body)).

Definition signPdf (lib : Library) (reqBody : Body) : Response :=
  let body := parseBody lib reqBody in
  let pdfBuffer := pdfBufferOf lib body in
  let originalHash := sha256Hex lib pdfBuffer in
  match annotate lib body with
  | Done pages =>
    let signedPdfBytes := save lib pages in
    let signedPdfBase64 := base64Encode lib signedPdfBytes in
    let signedHash := sha256Hex lib signedPdfBytes in
    Success ("data:application/pdf;base64," ++ signedPdfBase64)
            originalHash signedHash
  | Thrown message => Failure500 "Failed to sign PDF" message
  end.

(** *** A stand-in library and a few requests

    Enough of a library to run the controller on examples: every buffer
    loads as one empty page of 600 by 800 points, PNG data embeds as a
    100 by 50 image and JPEG data is refused. *)

Definition fitInside (img : PDFImage) (w h : Q) : Q * Q :=
  let scale := Qmin (w / imageWidth img) (h / imageHeight img) in
  (imageWidth img * scale, imageHeight img * scale).

Definition demoLibrary : Library :=
  {| jsonParse := fun _ => None;
     base64Decode := list_byte_of_string;
     base64Encode := string_of_list_byte;
     sampleFile := None;
     blankPdf := [];
     sha256Hex := string_of_list_byte;
     load := fun _ => Done [mkPage 600 800 []];
     save := fun _ => [];
     embedPng := fun _ => Some (mkImage 100 50);
     embedJpg := fun _ => None;
     scaleToFit := fitInside |}.

Definition nameField : Field :=
  {| id := "field-1"; type := "text";
     x := 10; y := 10; width := 20; height := 5;
     page := 1; content := Some "Jane Doe"%string |}.

Definition farField : Field :=
  {| id := "field-2"; type := "date";
     x := 10; y := 10; width := 20; height := 5;
     page := 99; content := None |}.

Definition gifField : Field :=
  {| id := "field-3"; type := "signature";
     x := 50; y := 80; width := 30; height := 10;
     page := 1; content := Some "data:image/gif;base64,R0lGODlhAQABAAAAACw="%string |}.

Definition pageZeroField : Field :=
  {| id := "field-4"; type := "radio";
     x := 10; y := 10; width := 20; height := 5;
     page := 0; content := None |}.

Definition requestWith (l : list Field) : Body :=
  BodyObject {| pdfBase64 := Some "JVBERi0xLjcK"%string; fields := Some l |}.

End Server.

(** ** The rest of the viewer: rendering, signing, opening the result *)

Module Viewer.
Import Client.

(** [fields.filter(f => f.page === pageNumber)]: the fields shown on a
    page. *)
Definition pageFields (fields : list FieldData) (pageNumber : Z) : list FieldData :=
  filter (fun f => Z.eqb (page f) pageNumber) fields.

(** [Array.from(new Array(numPages), (_, index) => index + 1)]. *)
Definition pageNumbers (numPages : nat) : list Z :=
  map (fun index => (Z.of_nat index + 1)%Z) (seq 0 numPages).

(** The [PlacedField] components of the document, page after page. *)
Definition renderedFields (numPages : nat) (fields : list FieldData) : list FieldData :=
  flat_map (pageFields fields) (pageNumbers numPages).

(** [ActiveDragItem], set by [handleDragStart]. *)
Record ActiveDragItem : Set := mkItem {
  itemId : string;
  itemType : FieldType;
  itemIsTool : bool;
  itemIsPlaced : bool
}.

Definition handleDragStart (a : Active) : ActiveDragItem :=
  {| itemId := activeId a; itemType := activeType a;
     itemIsTool := isTool a; itemIsPlaced := isPlaced a |}.

(** The field shown in the drag overlay. *)
Definition getActiveField (activeItem : option ActiveDragItem)
    (fields : list FieldData) : option FieldData :=
  match activeItem with
  | None => None
  | Some item =>
    if negb (itemIsPlaced item) then None
    else find (fun f => String.eqb (id f) (itemId item)) fields
  end.

(** The string a [FieldType] is. *)
Definition typeName (t : FieldType) : string :=
  match t with
  | text => "text"
  | signature => "signature"
  | date => "date"
  | image => "image"
  | radio => "radio"
  end.

(** One entry of [fields] in the body built by [handleSign].  A
    [FieldData] has no [content], so the entry has none. *)
Definition requestField (item : FieldData) : Server.Field :=
  {| Server.id := id item;
     Server.type := typeName (type item);
     Server.x := x item;
     Server.y := y item;
     Server.width := width item;
     Server.height := height item;
     Server.page := page item;
     Server.content := None |}.

(** The body posted by [handleSign], as the server receives it; [pdfId] and
    [signatures] are sent too and never read. *)
Definition signRequest (pdfBase64 : string) (fields : list FieldData) : Server.Body :=
  Server.BodyObject
    {| Server.pdfBase64 := Some pdfBase64;
       Server.fields := Some (map requestField fields) |}.

(** [s.split(sep)] for a one-character separator. *)
Fixpoint split (sep : Ascii.ascii) (s : string) : list string :=
  match s with
  | EmptyString => [EmptyString]
  | String c rest =>
    if Ascii.eqb c sep then EmptyString :: split sep rest
    else
      match split sep rest with
      | [] => [String c EmptyString]
      | piece :: pieces => String c piece :: pieces
      end
  end.

(** What the button "Open Signed PDF" opens: a blob made from the decoded
    bytes, or the URL itself. *)
Inductive Opened : Set :=
| OpenBlob (bytes : Server.Buffer)
| OpenUrl (url : string).

(** The click handler; [atob] is the browser's decoder, [None] when it
    throws.  Nothing is opened without a URL. *)
Definition openSignedPdf (atob : string -> option Server.Buffer)
    (pdfUrl : option string) : option Opened :=
  if Server.truthy pdfUrl then
    let dataUri := Server.stringOf pdfUrl in
    if Server.startsWith dataUri "data:application/pdf;base64," then
      match nth_error (split ","%char dataUri) 1 with
      | Some base64 =>
        match atob base64 with
        | Some bytes => Some (OpenBlob bytes)
        | None => Some (OpenUrl dataUri)
        end
      | None => Some (OpenUrl dataUri)
      end
    else Some (OpenUrl dataUri)
  else None.

(** [pdfUrl] of the modal after [handleSign]: [result.url] on success. *)
Definition pdfUrlOf (result : Server.Response) : option string :=
  match result with
  | Server.Success url _ _ => Some url
  | Server.Failure500 _ _ => None
  end.

(** A drag event is on a page of the document when the page under it, if
    any, is one of [1 .. numPages]. *)
Definition onDocument (numPages : nat) (a : Action) : Prop :=
  match a with
  | DragEnd _ event =>
    match over event with
    | Some ov => (1 <= overPage ov <= Z.of_nat numPages)%Z
    | None => True
    end
  | _ => True
  end.

End Viewer.

(** ** The earlier controller

    The loop of the first [signPdf] kept in the repository: no guard on the
    page index and no [try] around the embed calls.  Its [catch] drops the
    error, so an exception is just [None]. *)

Module Earlier.
Import Server.

Definition drawField (lib : Library) (field : Field) (b : Box) : option (list Mark) :=
  let x := bx b in
  let y := by_ b in
  let wPoints := wPoints b in
  let hPoints := hPoints b in
  let drawImage (image : PDFImage) :=
    let imgDims := scaleToFit lib image wPoints hPoints in
    let xOffset := (wPoints - fst imgDims) / 2 in
    let yOffset := (hPoints - snd imgDims) / 2 in
    [DrawImage image (x + xOffset) (y + yOffset) (fst imgDims) (snd imgDims)] in
  if String.eqb (type field) "signature" || String.eqb (type field) "image" then
    if truthy (content field) then
      let c := stringOf (content field) in
      if startsWith c "data:image/png" then
        option_map drawImage (embedPng lib c)
      else if startsWith c "data:image/jpeg" || startsWith c "data:image/jpg" then
        option_map drawImage (embedJpg lib c)
      else Some []
    else Some [DrawRectangle x y wPoints hPoints (rgb 1 0 0) 1 None]
  else if String.eqb (type field) "text" then
    Some (DrawRectangle x y wPoints hPoints (rgb 0 0 1) 1 None ::
          (if truthy (content field) then
             let fontSize := 12 in
             [DrawText (stringOf (content field)) (x + 5) (y + hPoints - 15) fontSize]
           else []))
  else if String.eqb (type field) "date" then
    Some [DrawRectangle x y wPoints hPoints (rgb 0.96 0.62 0.04) 1
            (Some (rgb 0.96 0.62 0.04, 0.1))]
  else if String.eqb (type field) "radio" then
    let centerX := x + (wPoints / 2) in
    let centerY := y + (hPoints / 2) in
    let radius := Qmin wPoints hPoints / 2 in
    Some [DrawEllipse centerX centerY radius radius (rgb 0.92 0.28 0.6) 1
            (rgb 0.92 0.28 0.6) 0.1]
  else Some [].

Definition processField (lib : Library) (pages : list PDFPage)
    (field : Field) : option (list PDFPage) :=
  let pageIndex := (page field - 1)%Z in
  match pageAt pages pageIndex with
  | None => None
  | Some pg =>
    match drawField lib field (pointBox field pg) with
    | None => None
    | Some ms => Some (drawOn pages (Z.to_nat pageIndex) ms)
    end
  end.

Fixpoint processFields (lib : Library) (pages : list PDFPage)
    (fieldList : list Field) : option (list PDFPage) :=
  match fieldList with
  | [] => Some pages
  | field :: rest =>
    match processField lib pages field with
    | None => None
    | Some pages' => processFields lib pages' rest
    end
  end.

End Earlier.

(** ** The handlers, event by event

    [onResizePointerDown] registers a listener on the document; every later
    pointer move runs it with the properties and the start position it
    captured when the handle was pressed, whatever happened to the list in
    between (a drag end of the same field through the keyboard or a second
    finger, a deletion).  An event of the list below is what one handler
    invocation needs, so that any interleaving is a list of events. *)

Module Session.
Import Client.

Inductive Event : Set :=
| DragEnded (newId : string) (event : DragEndEvent)
| PointerMoved (props : FieldData) (st : ResizeStart) (moves : list (Q * Q))
| DeleteClicked (target : string).

Definition handle (prev : list FieldData) (e : Event) : list FieldData :=
  match e with
  | DragEnded newId event => handleDragEnd newId event prev
  | PointerMoved props st moves => resizeMoves props st moves prev
  | DeleteClicked target => handleDeleteField target prev
  end.

(** The list starts empty. *)
Definition replay (events : list Event) : list FieldData :=
  fold_left handle events [].

(** The corner a listener captured is current when every field of the list
    with the listener's id is at the captured [x] and [y]. *)
Definition cornerCurrent (props : FieldData) (prev : list FieldData) : Prop :=
  forall f, In f prev -> id f = id props -> x f == x props /\ y f == y props.

Definition nonZero (w h : Q) : Prop := ~ w == 0 /\ ~ h == 0.

(** An event is regular for the list it arrives on when the sizes it
    divides by are not zero and, for pointer moves, the captured corner is
    current. *)
Definition regular (prev : list FieldData) (e : Event) : Prop :=
  match e with
  | DragEnded _ event =>
    match over event with
    | Some ov => nonZero (rectWidth (overRect ov)) (rectHeight (overRect ov))
    | None => True
    end
  | PointerMoved props st _ =>
    nonZero (parentWidth st) (parentHeight st) /\ cornerCurrent props prev
  | DeleteClicked _ => True
  end.

Fixpoint regularFrom (prev : list FieldData) (events : list Event) : Prop :=
  match events with
  | [] => True
  | e :: rest => regular prev e /\ regularFrom (handle prev e) rest
  end.

(** *** Three short sessions *)

(** A text tool dropped at 20 percent across. *)
Definition dropAt20 : DragEndEvent :=
  {| active := {| activeId := "tool-text"; isTool := true; isPlaced := false;
                  activeType := text;
                  translated := Some (mkRect 120 40 120 40) |};
     over := Some {| overPage := 1; overRect := pageRect |} |}.

(** The field [field-1] dragged to 80 percent across. *)
Definition dragTo80 : DragEndEvent :=
  {| active := {| activeId := "field-1"; isTool := false; isPlaced := true;
                  activeType := text;
                  translated := Some (mkRect 480 40 120 40) |};
     over := Some {| overPage := 1; overRect := pageRect |} |}.

(** The field as rendered after [dropAt20], hence what a press on its
    handle captures. *)
Definition pressedField : FieldData :=
  newField "field-1" text 1 (percentX (mkRect 120 40 120 40) pageRect)
    (percentY (mkRect 120 40 120 40) pageRect).

(** Drop, resize, then move: nothing happens during the gesture. *)
Definition calmSession : list Event :=
  [DragEnded "field-1" dropAt20;
   PointerMoved pressedField handlePress [(1200, 80)];
   DragEnded "field-2" dragTo80].



(** A field three percent wide against the right edge. *)
Definition edgeField : FieldData :=
  {| id := "field-8"; type := text; x := 97; y := 10; width := 3; height := 5;
     page := 1 |}.

End Session.

(** ** The loop body with a font

    [page.drawText] uses the page's default font and throws when the font
    cannot encode the text; the call is outside any inner [try].  Here the
    font is a parameter and the outcome keeps the pages as they are when
    the body ends or throws. *)

Module WithFont.
Import Server.

Record Font : Type := mkFont {
  encodes : string -> bool;
  refusal : string -> string
}.

Inductive Run : Set :=
| Completed (pages : list PDFPage)
| Threw (pages : list PDFPage) (message : string).

Definition processField (lib : Library) (font : Font) (pages : list PDFPage)
    (field : Field) : Run :=
  let pageIndex := (page field - 1)%Z in
  if (pageIndex >=? Z.of_nat (List.length pages))%Z then Completed pages
  else
    match pageAt pages pageIndex with
    | None => Threw pages getSizeOfUndefined
    | Some pg =>
      let b := pointBox field pg in
      let x := bx b in
      let y := by_ b in
      let wPoints := wPoints b in
      let hPoints := hPoints b in
      let n := Z.to_nat pageIndex in
      if String.eqb (type field) "signature" || String.eqb (type field) "image" then
        Completed (drawOn pages n (drawField lib field b))
      else if String.eqb (type field) "text" then
        let outlined :=
          drawOn pages n [DrawRectangle x y wPoints hPoints (rgb 0 0 1) 1 None] in
        if truthy (content field) then
          let fontSize := 12 in
          if encodes font (stringOf (content field)) then
            Completed
              (drawOn outlined n
                 [DrawText (stringOf (content field)) (x + 5) (y + hPoints - 15)
                    fontSize])
          else Threw outlined (refusal font (stringOf (content field)))
        else Completed outlined
      else Completed (drawOn pages n (drawField lib field b))
    end.




End WithFont.

(** * Properties of the field placement model *)

Module ClientProofs.
Import Client.

(** ** Clamping *)

Lemma max_min_lower (hi v : Q) : 0 <= Qmax 0 (Qmin hi v).
Proof. apply Q.le_max_l. Qed.

Lemma max_min_upper (hi v : Q) : 0 <= hi -> Qmax 0 (Qmin hi v) <= hi.
Proof.
  intros Hhi. apply Q.max_lub; [exact Hhi | apply Q.le_min_l].
Qed.

Lemma min_max_upper (hi lo v : Q) : Qmin hi (Qmax lo v) <= hi.
Proof. apply Q.le_min_l. Qed.

Lemma min_max_lower (hi lo v : Q) : lo <= hi -> lo <= Qmin hi (Qmax lo v).
Proof.
  intros Hlh. apply Q.min_glb; [exact Hlh | apply Q.le_max_l].
Qed.

(** ** One field at a time *)


Lemma newField_wellSized newId ty pageNumber pX pY :
  wellSized (newField newId ty pageNumber pX pY).
Proof.
  unfold wellSized, newField, defaultWidth, defaultHeight; simpl.
  pose proof (max_min_lower (100 - 20) pX).
  pose proof (max_min_lower (100 - 5) pY).
  assert (Qmax 0 (Qmin (100 - 20) pX) <= 100 - 20)
    by (apply max_min_upper; lra).
  assert (Qmax 0 (Qmin (100 - 5) pY) <= 100 - 5)
    by (apply max_min_upper; lra).
  repeat split; lra.
Qed.

Lemma movedField_id target pageNumber pX pY f :
  id (movedField target pageNumber pX pY f) = id f.
Proof. unfold movedField. destruct (String.eqb (id f) target); reflexivity. Qed.

Lemma movedField_wellSized target pageNumber pX pY f :
  wellSized f -> wellSized (movedField target pageNumber pX pY f).
Proof.
  unfold wellSized, movedField. intros (Hx & Hy & Hw & Hh & Hxw & Hyh).
  destruct (String.eqb (id f) target); simpl; [| intuition].
  pose proof (max_min_lower (100 - width f) pX).
  pose proof (max_min_lower (100 - height f) pY).
  assert (Qmax 0 (Qmin (100 - width f) pX) <= 100 - width f)
    by (apply max_min_upper; lra).
  assert (Qmax 0 (Qmin (100 - height f) pY) <= 100 - height f)
    by (apply max_min_upper; lra).
  repeat split; lra.
Qed.

(** The size a pointer move asks for, on a well-sized field. *)
Lemma onPointerMove_bounds props st cx cy :
  wellSized props ->
  5 <= fst (onPointerMove props st cx cy) /\
  2 <= snd (onPointerMove props st cx cy) /\
  x props + fst (onPointerMove props st cx cy) <= 100 /\
  y props + snd (onPointerMove props st cx cy) <= 100.
Proof.
  unfold wellSized, onPointerMove. intros (Hx & Hy & Hw & Hh & Hxw & Hyh).
  cbn [fst snd].
  set (dw := width props + _). set (dh := height props + _).
  pose proof (min_max_upper (100 - x props) 5 dw).
  pose proof (min_max_upper (100 - y props) 2 dh).
  assert (5 <= Qmin (100 - x props) (Qmax 5 dw))
    by (apply min_max_lower; lra).
  assert (2 <= Qmin (100 - y props) (Qmax 2 dh))
    by (apply min_max_lower; lra).
  repeat split; lra.
Qed.

Lemma resizeMoves_cons props st cx cy rest l :
  resizeMoves props st ((cx, cy) :: rest) l =
  resizeMoves props st rest
    (handleResize (id props) (fst (onPointerMove props st cx cy))
       (snd (onPointerMove props st cx cy)) l).
Proof. reflexivity. Qed.

Lemma moved_ids target pageNumber pX pY l :
  map id (map (movedField target pageNumber pX pY) l) = map id l.
Proof.
  rewrite map_map. apply map_ext. intros f. apply movedField_id.
Qed.

(** ** The two ways a drag can end *)

Lemma handleDragEnd_places newId event prev :
  places event = true ->
  exists ov r,
    over event = Some ov /\ translated (active event) = Some r /\
    handleDragEnd newId event prev =
    prev ++ [newField newId (activeType (active event)) (overPage ov)
               (percentX r (overRect ov)) (percentY r (overRect ov))].
Proof.
  unfold places, handleDragEnd.
  destruct (over event) as [ov |]; [| discriminate].
  destruct (translated (active event)) as [r |]; [| discriminate].
  intros ->. exists ov, r. repeat split.
Qed.

Lemma handleDragEnd_moves newId event prev :
  places event = false ->
  handleDragEnd newId event prev = prev \/
  exists pageNumber pX pY,
    handleDragEnd newId event prev =
    map (movedField (activeId (active event)) pageNumber pX pY) prev.
Proof.
  unfold places, handleDragEnd.
  destruct (over event) as [ov |]; [| now left].
  destruct (translated (active event)) as [r |]; [| now left].
  intros ->. destruct (isPlaced (active event)); [right | now left].
  now exists (overPage ov), (percentX r (overRect ov)), (percentY r (overRect ov)).
Qed.

(** ** The session, run

    The tool dropped at 95 percent lands at 80; the gesture ends at the
    minimum width 5 and at height 15; the move to (50, 98.75) stops at
    (50, 85) and takes the field to page 2. *)
Example session_result :
  map (fun f => (id f, Qred (x f), Qred (y f), Qred (width f), Qred (height f), page f))
      (run session)
  = [("field-1"%string, 50, 85, 5, 15, 2%Z)].
Proof. vm_compute. reflexivity. Qed.

(** ** The claims on the placement model *)

(** C3. Dropping a tool of any type on a page appends one field to the
    list: its width is 20 and its height 5, its type is the tool's, and
    its position is the drop position clamped, [x = max(0, min(100 - 20,
    percentX))] and [y = max(0, min(100 - 5, percentY))]. *)
Theorem place_appends_default_field newId event prev ov r :
  over event = Some ov ->
  translated (active event) = Some r ->
  isTool (active event) = true ->
  exists f,
    handleDragEnd newId event prev = prev ++ [f] /\
    id f = newId /\
    type f = activeType (active event) /\
    page f = overPage ov /\
    width f = 20 /\
    height f = 5 /\
    x f = Qmax 0 (Qmin (100 - 20) (percentX r (overRect ov))) /\
    y f = Qmax 0 (Qmin (100 - 5) (percentY r (overRect ov))).
Proof.
  intros Hov Htr Htool. unfold handleDragEnd. rewrite Hov, Htr, Htool.
  eexists. split; [reflexivity |]. repeat split.
Qed.

Lemma place_appends_default_field_witness :
  exists f,
    handleDragEnd "field-1" toolDrop [] = [] ++ [f] /\
    id f = "field-1"%string /\
    type f = text /\
    page f = 1%Z /\
    width f = 20 /\
    height f = 5 /\
    x f = Qmax 0 (Qmin (100 - 20) (percentX (mkRect 570 40 120 40) pageRect)) /\
    y f = Qmax 0 (Qmin (100 - 5) (percentY (mkRect 570 40 120 40) pageRect)).
Proof.
  apply (place_appends_default_field "field-1" toolDrop []
           {| overPage := 1; overRect := pageRect |} (mkRect 570 40 120 40));
    reflexivity.
Defined.

(** C10. A move (a drag that does not come from a tool) changes at most
    [x], [y] and [page], and only of fields whose id is the dragged one;
    [handleResize] changes at most [width] and [height], and only of
    fields whose id is the given one.  Both keep the length of the list
    and the position of every field in it. *)
Theorem move_and_resize_frame newId event target w h prev :
  isTool (active event) = false ->
  (List.length (handleDragEnd newId event prev) = List.length prev /\
   forall i f, nth_error prev i = Some f ->
     exists f',
       nth_error (handleDragEnd newId event prev) i = Some f' /\
       id f' = id f /\ type f' = type f /\
       width f' = width f /\ height f' = height f /\
       (id f <> activeId (active event) -> f' = f)) /\
  (List.length (handleResize target w h prev) = List.length prev /\
   forall i f, nth_error prev i = Some f ->
     exists f',
       nth_error (handleResize target w h prev) i = Some f' /\
       id f' = id f /\ type f' = type f /\
       x f' = x f /\ y f' = y f /\ page f' = page f /\
       (id f <> target -> f' = f)).
Proof.
  intros Htool. split.
  - assert (Epl : places event = false).
    { unfold places. rewrite Htool.
      destruct (over event), (translated (active event)); reflexivity. }
    destruct (handleDragEnd_moves newId event prev Epl)
      as [-> | (pn & pX & pY & ->)].
    + split; [reflexivity |]. intros i f Hf. exists f. repeat split; auto.
    + split; [apply length_map |]. intros i f Hf.
      rewrite nth_error_map, Hf. cbn [option_map].
      eexists. split; [reflexivity |]. unfold movedField.
      destruct (String.eqb (id f) (activeId (active event))) eqn:E;
        cbn [id type width height]; repeat split.
      apply String.eqb_eq in E. intros Hne. contradiction.
  - unfold handleResize. split; [apply length_map |]. intros i f Hf.
    rewrite nth_error_map, Hf. cbn [option_map].
    eexists. split; [reflexivity |].
    destruct (String.eqb (id f) target) eqn:E;
      cbn [id type x y page]; repeat split.
    apply String.eqb_eq in E. intros Hne. contradiction.
Qed.

Lemma move_and_resize_frame_witness :
  List.length (handleDragEnd "field-2" fieldDrag (run [DragEnd "field-1" toolDrop]))
  = List.length (run [DragEnd "field-1" toolDrop]) /\
  List.length (handleResize "field-1" 30 10 (run [DragEnd "field-1" toolDrop]))
  = List.length (run [DragEnd "field-1" toolDrop]).
Proof.
  destruct (move_and_resize_frame "field-2" fieldDrag "field-1" 30 10
              (run [DragEnd "field-1" toolDrop]) eq_refl)
    as [[Hmove _] [Hresize _]].
  split; [exact Hmove | exact Hresize].
Defined.

End ClientProofs.

(** * Properties of the annotation renderer *)

Module ServerProofs.
Import Server.

(** ** Drawing on a page of the list *)

Lemma addMarks_nil pg : addMarks pg [] = pg.
Proof. destruct pg. unfold addMarks; simpl. now rewrite app_nil_r. Qed.

Lemma drawOn_nil pages n : drawOn pages n [] = pages.
Proof.
  revert n. induction pages as [| pg pages IH]; intros [| n]; simpl;
    try reflexivity.
  - now rewrite addMarks_nil.
  - now rewrite IH.
Qed.

Lemma drawOn_length pages n ms :
  List.length (drawOn pages n ms) = List.length pages.
Proof.
  revert n. induction pages as [| pg pages IH]; intros [| n]; simpl; auto.
Qed.

Lemma drawOn_nth pages n ms pg :
  nth_error pages n = Some pg ->
  nth_error (drawOn pages n ms) n = Some (addMarks pg ms).
Proof.
  revert n. induction pages as [| p pages IH]; intros [| n]; simpl;
    try discriminate.
  - now intros [= ->].
  - apply IH.
Qed.

(** ** The three ways the loop body can go *)

Lemma processField_skips lib pages field :
  (page field > Z.of_nat (List.length pages))%Z ->
  processField lib pages field = Done pages.
Proof.
  intros Hbig. unfold processField. rewrite Z.geb_leb.
  destruct (Z.leb_spec (Z.of_nat (List.length pages)) (page field - 1));
    [reflexivity | lia].
Qed.

Lemma processField_throws lib pages field :
  (page field <= 0)%Z ->
  processField lib pages field = Thrown getSizeOfUndefined.
Proof.
  intros Hlow. unfold processField, pageAt. rewrite Z.geb_leb.
  destruct (Z.leb_spec (Z.of_nat (List.length pages)) (page field - 1));
    [lia |].
  destruct (Z.ltb_spec (page field - 1) 0); [reflexivity | lia].
Qed.

Lemma processField_draws lib pages field pg :
  (1 <= page field)%Z ->
  nth_error pages (Z.to_nat (page field - 1)) = Some pg ->
  processField lib pages field =
  Done (drawOn pages (Z.to_nat (page field - 1))
          (drawField lib field (pointBox field pg))).
Proof.
  intros Hpos Hnth. unfold processField, pageAt. rewrite Z.geb_leb.
  assert (Hlt : (Z.to_nat (page field - 1) < List.length pages)%nat)
    by (apply nth_error_Some; congruence).
  destruct (Z.leb_spec (Z.of_nat (List.length pages)) (page field - 1));
    [lia |].
  destruct (Z.ltb_spec (page field - 1) 0); [lia |].
  now rewrite Hnth.
Qed.

Lemma processField_length lib pages field pages' :
  processField lib pages field = Done pages' ->
  List.length pages' = List.length pages.
Proof.
  unfold processField.
  destruct (page field - 1 >=? Z.of_nat (List.length pages))%Z.
  - now intros [= <-].
  - destruct (pageAt pages (page field - 1)); [| discriminate].
    intros [= <-]. apply drawOn_length.
Qed.

(** ** The loop *)

Lemma processFields_app lib l1 : forall pages l2,
  processFields lib pages (l1 ++ l2) =
  bind (processFields lib pages l1) (fun pages' => processFields lib pages' l2).
Proof.
  induction l1 as [| f l1 IH]; intros pages l2; simpl; [reflexivity |].
  destruct (processField lib pages f) as [pages' | e]; simpl; auto.
Qed.

Lemma processFields_length lib l : forall pages pages',
  processFields lib pages l = Done pages' ->
  List.length pages' = List.length pages.
Proof.
  induction l as [| f l IH]; intros pages pages'; simpl.
  - now intros [= <-].
  - destruct (processField lib pages f) as [p | e] eqn:E; simpl;
      [| discriminate].
    intros H. rewrite (IH _ _ H). eapply processField_length; eassumption.
Qed.

(** A field that leaves every document of the same length untouched can
    be removed from the list without changing the outcome. *)
Lemma processFields_drop lib pages before field after :
  (forall pages', List.length pages' = List.length pages ->
                  processField lib pages' field = Done pages') ->
  processFields lib pages (before ++ field :: after) =
  processFields lib pages (before ++ after).
Proof.
  intros Hskip. rewrite !processFields_app.
  destruct (processFields lib pages before) as [pages' | e] eqn:E; simpl;
    [| reflexivity].
  rewrite Hskip; [reflexivity |].
  eapply processFields_length; eassumption.
Qed.

Lemma processFields_throws lib l : forall pages f,
  In f l -> (page f <= 0)%Z ->
  exists e, processFields lib pages l = Thrown e.
Proof.
  induction l as [| g l IH]; intros pages f Hin Hlow; [contradiction |].
  simpl. destruct Hin as [-> | Hin].
  - rewrite processField_throws by assumption. simpl. eauto.
  - destruct (processField lib pages g) as [pages' | e]; simpl; eauto.
Qed.

(** ** A request, run

    Three fields on a one-page document: the text field is drawn, the field
    on page 99 and the GIF signature leave no mark. *)
Example three_fields_result :
  processFields demoLibrary [mkPage 600 800 []] [nameField; farField; gifField]
  = Done [mkPage 600 800
            (drawField demoLibrary nameField
               (pointBox nameField (mkPage 600 800 [])))].
Proof. reflexivity. Qed.

Example page_zero_result :
  signPdf demoLibrary (requestWith [nameField; pageZeroField])
  = Failure500 "Failed to sign PDF" getSizeOfUndefined.
Proof. reflexivity. Qed.

(** ** The claims on the renderer *)

(** C1. For a field whose page exists, the marks are drawn on that page
    with the box [x = (x/100) * pageWidth], [wPoints = (width/100) *
    pageWidth], [hPoints = (height/100) * pageHeight] and [y = pageHeight
    - (y/100) * pageHeight - hPoints]; a field at (10, 10) of size 20 by 5
    on a 600 by 800 page gets the corner (60, 680). *)
Theorem percent_to_points lib pages field pg :
  (1 <= page field)%Z ->
  nth_error pages (Z.to_nat (page field - 1)) = Some pg ->
  let b := pointBox field pg in
  processField lib pages field =
    Done (drawOn pages (Z.to_nat (page field - 1)) (drawField lib field b)) /\
  bx b = (x field / 100) * pageWidth pg /\
  wPoints b = (width field / 100) * pageWidth pg /\
  hPoints b = (height field / 100) * pageHeight pg /\
  by_ b = pageHeight pg - (y field / 100) * pageHeight pg - hPoints b /\
  (x field == 10 -> y field == 10 -> width field == 20 -> height field == 5 ->
   pageWidth pg == 600 -> pageHeight pg == 800 ->
   bx b == 60 /\ by_ b == 680).
Proof.
  intros Hpos Hnth b.
  split; [now apply processField_draws |].
  repeat (split; [reflexivity |]).
  intros Hx Hy Hw Hh Hpw Hph. subst b. unfold pointBox. cbn [bx by_].
  rewrite Hx, Hy, Hh, Hpw, Hph. split; reflexivity.
Qed.

Lemma percent_to_points_witness :
  processField demoLibrary [mkPage 600 800 []] nameField =
    Done [mkPage 600 800 (drawField demoLibrary nameField
                            (pointBox nameField (mkPage 600 800 [])))] /\
  bx (pointBox nameField (mkPage 600 800 [])) == 60 /\
  by_ (pointBox nameField (mkPage 600 800 [])) == 680.
Proof.
  destruct (percent_to_points demoLibrary [mkPage 600 800 []] nameField
              (mkPage 600 800 []) ltac:(simpl; lia) eq_refl)
    as (Hdraw & _ & _ & _ & _ & Hex).
  split; [exact Hdraw |].
  apply Hex; reflexivity.
Defined.

(** C5. A field whose page number exceeds the page count is skipped: the
    loop body returns the pages as they were, without throwing, and the
    other fields are processed as if it were not in the list; when it is
    the only field (page 99 of a one-page document, say) the request
    succeeds and the pages saved are the pages loaded. *)
Theorem page_beyond_count_skipped lib pages field :
  (page field > Z.of_nat (List.length pages))%Z ->
  processField lib pages field = Done pages /\
  (forall before after,
     processFields lib pages (before ++ field :: after) =
     processFields lib pages (before ++ after)) /\
  (forall reqBody,
     fieldListOf (parseBody lib reqBody) = [field] ->
     load lib (pdfBufferOf lib (parseBody lib reqBody)) = Done pages ->
     signPdf lib reqBody =
     Success ("data:application/pdf;base64," ++ base64Encode lib (save lib pages))
             (sha256Hex lib (pdfBufferOf lib (parseBody lib reqBody)))
             (sha256Hex lib (save lib pages))).
Proof.
  intros Hbig. split; [now apply processField_skips |]. split.
  - intros before after. apply processFields_drop.
    intros pages' Hlen. apply processField_skips. now rewrite Hlen.
  - intros reqBody Hfields Hload.
    unfold signPdf, annotate. rewrite Hload, Hfields. simpl.
    now rewrite processField_skips.
Qed.

Lemma page_beyond_count_skipped_witness :
  processField demoLibrary [mkPage 600 800 []] farField =
    Done [mkPage 600 800 []] /\
  signPdf demoLibrary (requestWith [farField]) =
    Success "data:application/pdf;base64," "JVBERi0xLjcK" "".
Proof.
  destruct (page_beyond_count_skipped demoLibrary [mkPage 600 800 []] farField
              ltac:(simpl; lia))
    as (Hskip & _ & Hsign).
  split; [exact Hskip |].
  apply (Hsign (requestWith [farField])); reflexivity.
Defined.

(** C6. A signature or image field whose content is a non-empty string
    that starts with none of [data:image/png], [data:image/jpeg] and
    [data:image/jpg] gets no mark at all, neither image nor placeholder;
    if its page number is at least 1 the loop body returns the pages
    unchanged and the other fields are processed as if it were not in the
    list. *)
Theorem unsupported_image_no_mark lib pages field c :
  type field = "signature"%string \/ type field = "image"%string ->
  content field = Some c ->
  truthy (content field) = true ->
  startsWith c "data:image/png" = false ->
  startsWith c "data:image/jpeg" = false ->
  startsWith c "data:image/jpg" = false ->
  (forall b, drawField lib field b = []) /\
  ((1 <= page field)%Z ->
   processField lib pages field = Done pages /\
   forall before after,
     processFields lib pages (before ++ field :: after) =
     processFields lib pages (before ++ after)).
Proof.
  intros Hty Hc Htruthy Hpng Hjpeg Hjpg.
  assert (Hnone : forall b, drawField lib field b = []).
  { intros b. unfold drawField, embedImage.
    rewrite Htruthy, Hc. cbn [stringOf]. rewrite Hpng, Hjpeg, Hjpg.
    destruct Hty as [-> | ->]; reflexivity. }
  split; [exact Hnone |]. intros Hpos.
  assert (Hsame : forall pages', processField lib pages' field = Done pages').
  { intros pages'.
    destruct (nth_error pages' (Z.to_nat (page field - 1))) as [pg |] eqn:E.
    - rewrite (processField_draws lib pages' field pg Hpos E), Hnone.
      now rewrite drawOn_nil.
    - apply processField_skips. apply nth_error_None in E. lia. }
  split; [apply Hsame |].
  intros before after. apply processFields_drop. intros pages' _. apply Hsame.
Qed.

Lemma unsupported_image_no_mark_witness :
  drawField demoLibrary gifField (pointBox gifField (mkPage 600 800 [])) = [] /\
  processField demoLibrary [mkPage 600 800 []] gifField =
    Done [mkPage 600 800 []] /\
  processFields demoLibrary [mkPage 600 800 []] ([] ++ gifField :: [nameField]) =
    processFields demoLibrary [mkPage 600 800 []] ([] ++ [nameField]).
Proof.
  destruct (unsupported_image_no_mark demoLibrary [mkPage 600 800 []] gifField
              "data:image/gif;base64,R0lGODlhAQABAAAAACw="
              (or_introl eq_refl) eq_refl eq_refl eq_refl eq_refl eq_refl)
    as [Hnone Hrest].
  destruct (Hrest ltac:(simpl; lia)) as [Hsame Hdrop].
  split; [apply Hnone |]. split; [exact Hsame | apply Hdrop].
Defined.

(** C9. A field whose page number is 0 or negative is not skipped: the
    loop body throws on the missing page, whatever the document, and a
    request whose field list contains such a field is answered with the
    500 response. *)
Theorem page_below_one_fails lib reqBody field :
  In field (fieldListOf (parseBody lib reqBody)) ->
  (page field <= 0)%Z ->
  (forall pages, processField lib pages field = Thrown getSizeOfUndefined) /\
  exists details, signPdf lib reqBody = Failure500 "Failed to sign PDF" details.
Proof.
  intros Hin Hlow. split.
  - intros pages. now apply processField_throws.
  - unfold signPdf, annotate.
    destruct (load lib (pdfBufferOf lib (parseBody lib reqBody)))
      as [pages | e]; simpl; [| eauto].
    destruct (processFields_throws lib _ pages field Hin Hlow) as [e ->].
    eauto.
Qed.

Lemma page_below_one_fails_witness :
  processField demoLibrary [mkPage 600 800 []] pageZeroField =
    Thrown getSizeOfUndefined /\
  exists details,
    signPdf demoLibrary (requestWith [nameField; pageZeroField]) =
    Failure500 "Failed to sign PDF" details.
Proof.
  destruct (page_below_one_fails demoLibrary
              (requestWith [nameField; pageZeroField]) pageZeroField
              ltac:(simpl; tauto) ltac:(simpl; lia))
    as [Hthrow Hfail].
  split; [apply Hthrow | exact Hfail].
Defined.

End ServerProofs.

(** * More on the placement model *)

Module ClientMore.
Import Client ClientProofs.

(** ** Clamping, case by case *)

Lemma max_min_cases (hi v : Q) :
  0 <= hi ->
  (0 <= v -> v <= hi -> Qmax 0 (Qmin hi v) == v) /\
  (v <= 0 -> Qmax 0 (Qmin hi v) == 0) /\
  (hi <= v -> Qmax 0 (Qmin hi v) == hi).
Proof.
  intros Hhi.
  destruct (Q.min_spec hi v) as [[H1 H2] | [H1 H2]];
    destruct (Q.max_spec 0 (Qmin hi v)) as [[H3 H4] | [H3 H4]];
    repeat split; intros; lra.
Qed.

Lemma min_max_cases (hi lo v : Q) :
  lo <= hi ->
  (lo <= v -> v <= hi -> Qmin hi (Qmax lo v) == v) /\
  (v <= lo -> Qmin hi (Qmax lo v) == lo) /\
  (hi <= v -> Qmin hi (Qmax lo v) == hi).
Proof.
  intros Hlh.
  destruct (Q.max_spec lo v) as [[H1 H2] | [H1 H2]];
    destruct (Q.min_spec hi (Qmax lo v)) as [[H3 H4] | [H3 H4]];
    repeat split; intros; lra.
Qed.

(** ** Deleting *)

Lemma delete_absent target l :
  ~ In target (map id l) -> handleDeleteField target l = l.
Proof.
  unfold handleDeleteField.
  induction l as [| f l IH]; simpl; intros Habsent; [reflexivity |].
  destruct (String.eqb_spec (id f) target) as [E | E]; simpl.
  - exfalso. apply Habsent. now left.
  - f_equal. apply IH. intros Hin. apply Habsent. now right.
Qed.

(** X1. After a deletion no field has the deleted id, the fields with
    another id are all still there, and deleting an id that is not in the
    list changes nothing. *)
Theorem delete_removes_the_id target l :
  ~ In target (map id (handleDeleteField target l)) /\
  (forall f, In f (handleDeleteField target l) <-> In f l /\ id f <> target) /\
  (~ In target (map id l) -> handleDeleteField target l = l).
Proof.
  assert (Hchar : forall f,
            In f (handleDeleteField target l) <-> In f l /\ id f <> target).
  { intros f. unfold handleDeleteField. rewrite filter_In.
    destruct (String.eqb_spec (id f) target) as [E | E]; simpl; intuition.
    discriminate. }
  split; [| split; [exact Hchar |]].
  - intros Hin. apply in_map_iff in Hin. destruct Hin as (f & Hid & Hf).
    apply Hchar in Hf. tauto.
  - apply delete_absent.
Qed.

Lemma delete_removes_the_id_witness :
  handleDeleteField "field-9" (run session) = run session.
Proof.
  apply (delete_removes_the_id "field-9" (run session)).
  vm_compute. intros [H | []]. discriminate H.
Defined.

(** X2. With distinct ids, deleting an id that is in the list removes
    exactly one field. *)
Theorem delete_removes_one target l :
  NoDup (map id l) ->
  In target (map id l) ->
  S (List.length (handleDeleteField target l)) = List.length l.
Proof.
  induction l as [| f l IH]; simpl; intros Hnd Hin; [contradiction |].
  inversion Hnd as [| ? ? Hnotin Hnd']; subst.
  destruct (String.eqb_spec (id f) target) as [E | E]; simpl.
  - f_equal. f_equal. apply delete_absent. now rewrite <- E.
  - f_equal. apply IH; [exact Hnd' |]. destruct Hin; [contradiction | assumption].
Qed.

Lemma delete_removes_one_witness :
  S (List.length (handleDeleteField "field-1" (run session))) =
  List.length (run session).
Proof.
  apply (delete_removes_one "field-1" (run session)).
  - vm_compute. constructor; [intros [] | constructor].
  - vm_compute. now left.
Defined.

(** ** Dragging *)

(** X3. A drag end never removes a field and never changes an id: the ids
    after it are the ids before it, in the same order, followed by the new
    id exactly when a tool was dropped on a page. *)
Theorem drag_end_ids newId event prev :
  map id (handleDragEnd newId event prev) =
  map id prev ++ (if places event then [newId] else []).
Proof.
  destruct (places event) eqn:Epl.
  - destruct (handleDragEnd_places newId event prev Epl)
      as (ov & r & _ & _ & ->).
    now rewrite map_app.
  - rewrite app_nil_r.
    destruct (handleDragEnd_moves newId event prev Epl)
      as [-> | (pn & pX & pY & ->)]; [reflexivity | apply moved_ids].
Qed.

(** X4. A moved field goes to the page under the pointer and, on each
    axis, to the pointer position when the field fits there, to 0 when the
    pointer is before the page, and to 100 minus its size when the field
    would stick out. *)
Theorem move_lands_where_it_fits target pageNumber pX pY f :
  id f = target ->
  width f <= 100 ->
  height f <= 100 ->
  let g := movedField target pageNumber pX pY f in
  page g = pageNumber /\
  (0 <= pX -> pX <= 100 - width f -> x g == pX) /\
  (pX <= 0 -> x g == 0) /\
  (100 - width f <= pX -> x g == 100 - width f) /\
  (0 <= pY -> pY <= 100 - height f -> y g == pY) /\
  (pY <= 0 -> y g == 0) /\
  (100 - height f <= pY -> y g == 100 - height f).
Proof.
  intros Hid Hw Hh g. subst g. unfold movedField.
  rewrite Hid, String.eqb_refl. cbn [page x y].
  destruct (max_min_cases (100 - width f) pX) as (X1 & X2 & X3); [lra |].
  destruct (max_min_cases (100 - height f) pY) as (Y1 & Y2 & Y3); [lra |].
  repeat split; assumption.
Qed.

Lemma move_lands_where_it_fits_witness :
  page (movedField "field-1" 2 50 (395 # 4) (newField "field-1" text 1 95 5)) = 2%Z /\
  x (movedField "field-1" 2 50 (395 # 4) (newField "field-1" text 1 95 5)) == 50 /\
  y (movedField "field-1" 2 50 (395 # 4) (newField "field-1" text 1 95 5)) == 100 - 5.
Proof.
  destruct (move_lands_where_it_fits "field-1" 2 50 (395 # 4)
              (newField "field-1" text 1 95 5) eq_refl
              ltac:(vm_compute; discriminate) ltac:(vm_compute; discriminate))
    as (Hp & Hx & _ & _ & _ & _ & Hy).
  split; [exact Hp |].
  split; [apply Hx | apply Hy]; vm_compute; discriminate.
Defined.

(** X5. A dropped tool lands, on each axis, at the pointer position when
    the default box fits there (up to 80 across, 95 down), at 0 when the
    pointer is before the page, and at 80 or 95 when it is beyond. *)
Theorem place_lands_where_it_fits newId ty pageNumber pX pY :
  let f := newField newId ty pageNumber pX pY in
  (0 <= pX -> pX <= 80 -> x f == pX) /\
  (pX <= 0 -> x f == 0) /\
  (80 <= pX -> x f == 80) /\
  (0 <= pY -> pY <= 95 -> y f == pY) /\
  (pY <= 0 -> y f == 0) /\
  (95 <= pY -> y f == 95).
Proof.
  intros f. subst f. unfold newField, defaultWidth, defaultHeight. cbn [x y].
  destruct (max_min_cases (100 - 20) pX) as (X1 & X2 & X3); [lra |].
  destruct (max_min_cases (100 - 5) pY) as (Y1 & Y2 & Y3); [lra |].
  repeat split; intros.
  - apply X1; lra.
  - apply X2; lra.
  - rewrite X3; lra.
  - apply Y1; lra.
  - apply Y2; lra.
  - rewrite Y3; lra.
Qed.

Lemma place_lands_where_it_fits_witness :
  x (newField "field-1" text 1 95 5) == 80 /\
  y (newField "field-1" text 1 95 5) == 5.
Proof.
  destruct (place_lands_where_it_fits "field-1" text 1 95 5)
    as (_ & _ & Hx & Hy & _ & _).
  split; [apply Hx | apply Hy]; vm_compute; discriminate.
Defined.

(** X6. Ending a move a second time with the same event changes nothing
    more. *)
Theorem move_twice_is_move_once newId newId' event prev :
  isTool (active event) = false ->
  handleDragEnd newId' event (handleDragEnd newId event prev) =
  handleDragEnd newId event prev.
Proof.
  intros Htool. unfold handleDragEnd.
  destruct (over event) as [ov |]; [| reflexivity].
  destruct (translated (active event)) as [r |]; [| reflexivity].
  rewrite Htool. destruct (isPlaced (active event)); [| reflexivity].
  rewrite map_map. apply map_ext. intros f. unfold movedField.
  destruct (String.eqb (id f) (activeId (active event))) eqn:E.
  - cbn [id width height type]. now rewrite E.
  - now rewrite E.
Qed.

Lemma move_twice_is_move_once_witness :
  handleDragEnd "field-3" fieldDrag
    (handleDragEnd "field-2" fieldDrag (run [DragEnd "field-1" toolDrop])) =
  handleDragEnd "field-2" fieldDrag (run [DragEnd "field-1" toolDrop]).
Proof.
  apply (move_twice_is_move_once "field-2" "field-3" fieldDrag
           (run [DragEnd "field-1" toolDrop]) eq_refl).
Defined.

(** ** Resizing *)

Lemma handleResize_twice target w1 h1 w2 h2 l :
  handleResize target w2 h2 (handleResize target w1 h1 l) =
  handleResize target w2 h2 l.
Proof.
  unfold handleResize. rewrite map_map. apply map_ext. intros f.
  destruct (String.eqb (id f) target) eqn:E.
  - cbn [id type x y page]. now rewrite E.
  - now rewrite E.
Qed.

Lemma resizeMoves_last props st moves : forall cx cy l,
  resizeMoves props st (moves ++ [(cx, cy)]) l =
  handleResize (id props) (fst (onPointerMove props st cx cy))
    (snd (onPointerMove props st cx cy)) l.
Proof.
  induction moves as [| [mx my] moves IH]; intros cx cy l.
  - reflexivity.
  - rewrite <- app_comm_cons, resizeMoves_cons, IH.
    apply handleResize_twice.
Qed.

(** X7. A resize gesture is measured from where the handle was pressed:
    after any number of pointer moves the list is what the last move alone
    would have made it. *)
Theorem gesture_is_its_last_move props st moves cx cy l :
  resizeMoves props st (moves ++ [(cx, cy)]) l =
  resizeMoves props st [(cx, cy)] l.
Proof.
  rewrite resizeMoves_last.
  change [(cx, cy)] with ([] ++ [(cx, cy)]).
  now rewrite resizeMoves_last.
Qed.

(** X8. On a page element of non-zero size and a field with [x <= 95],
    the width asked for by a pointer move is the captured width plus the
    pointer's travel in percent of the page when that lies between 5 and
    [100 - x]; it is 5 below that range and [100 - x] above it.  Likewise
    the height, between 2 and [100 - y], for [y <= 98]. *)
Theorem resize_follows_the_pointer props st cx cy :
  ~ parentWidth st == 0 ->
  ~ parentHeight st == 0 ->
  x props <= 95 ->
  y props <= 98 ->
  let dw := (cx - startX st) / parentWidth st * 100 in
  let dh := (cy - startY st) / parentHeight st * 100 in
  let w := fst (onPointerMove props st cx cy) in
  let h := snd (onPointerMove props st cx cy) in
  (5 <= width props + dw -> width props + dw <= 100 - x props ->
   w == width props + dw) /\
  (width props + dw <= 5 -> w == 5) /\
  (100 - x props <= width props + dw -> w == 100 - x props) /\
  (2 <= height props + dh -> height props + dh <= 100 - y props ->
   h == height props + dh) /\
  (height props + dh <= 2 -> h == 2) /\
  (100 - y props <= height props + dh -> h == 100 - y props).
Proof.
  intros _ _ Hx Hy dw dh w h. subst w h. unfold onPointerMove. cbn [fst snd].
  fold dw. fold dh.
  destruct (min_max_cases (100 - x props) 5 (width props + dw))
    as (W1 & W2 & W3); [lra |].
  destruct (min_max_cases (100 - y props) 2 (height props + dh))
    as (H1 & H2 & H3); [lra |].
  repeat split; assumption.
Qed.

Lemma resize_follows_the_pointer_witness :
  fst (onPointerMove (newField "field-1" text 1 50 5) handlePress 630 120) == 25 /\
  snd (onPointerMove (newField "field-1" text 1 50 5) handlePress 630 120) == 10.
Proof.
  destruct (resize_follows_the_pointer (newField "field-1" text 1 50 5)
              handlePress 630 120
              ltac:(vm_compute; discriminate) ltac:(vm_compute; discriminate)
              ltac:(vm_compute; discriminate) ltac:(vm_compute; discriminate))
    as (Hw & _ & _ & Hh & _ & _).
  split.
  - rewrite Hw; vm_compute; try reflexivity; discriminate.
  - rewrite Hh; vm_compute; try reflexivity; discriminate.
Defined.

(** ** Placing, then deleting *)

(** X25. Deleting a field that was just placed, when its id was not yet
    in use, gives back the list as it was before the drop. *)
Theorem place_then_delete newId event prev :
  places event = true ->
  ~ In newId (map id prev) ->
  handleDeleteField newId (handleDragEnd newId event prev) = prev.
Proof.
  intros Hpl Hfresh.
  destruct (handleDragEnd_places newId event prev Hpl) as (ov & r & _ & _ & ->).
  unfold handleDeleteField. rewrite filter_app. cbn [filter newField id].
  rewrite String.eqb_refl. cbn [negb]. rewrite app_nil_r.
  now apply delete_absent.
Qed.

Lemma place_then_delete_witness :
  handleDeleteField "field-7" (handleDragEnd "field-7" toolDrop (run session)) =
  run session.
Proof.
  apply (place_then_delete "field-7" toolDrop (run session) eq_refl).
  vm_compute. intros [H | []]. discriminate H.
Defined.

End ClientMore.

(** * Rendering the fields *)

Module ViewerProofs.
Import Client Viewer.

Lemma NoDup_map_inj (f : nat -> Z) (l : list nat) :
  (forall i j, f i = f j -> i = j) -> NoDup l -> NoDup (map f l).
Proof.
  intros Hinj. induction 1 as [| i l Hnotin Hnd IH]; simpl; constructor; auto.
  intros Hin. apply in_map_iff in Hin. destruct Hin as (j & E & Hj).
  apply Hinj in E. now subst.
Qed.

Lemma pageNumbers_In (numPages : nat) (p : Z) :
  In p (pageNumbers numPages) <-> (1 <= p <= Z.of_nat numPages)%Z.
Proof.
  unfold pageNumbers. rewrite in_map_iff. split.
  - intros (i & <- & Hi). apply in_seq in Hi. lia.
  - intros Hp. exists (Z.to_nat (p - 1)). split; [lia |].
    apply in_seq. lia.
Qed.

Lemma pageNumbers_NoDup (numPages : nat) : NoDup (pageNumbers numPages).
Proof.
  unfold pageNumbers. apply NoDup_map_inj; [| apply seq_NoDup].
  intros i j Hij. lia.
Qed.

Lemma existsb_page (ps : list Z) (p : Z) :
  existsb (Z.eqb p) ps = true <-> In p ps.
Proof.
  rewrite existsb_exists. split.
  - intros (q & Hq & E). apply Z.eqb_eq in E. now subst.
  - intros Hin. exists p. split; [assumption | apply Z.eqb_refl].
Qed.

Lemma rendered_cons f fields (ps : list Z) :
  NoDup ps ->
  List.length (flat_map (pageFields (f :: fields)) ps) =
  ((if existsb (Z.eqb (page f)) ps then 1 else 0) +
   List.length (flat_map (pageFields fields) ps))%nat.
Proof.
  induction ps as [| p ps IH]; intros Hnd; [reflexivity |].
  inversion Hnd as [| ? ? Hnotin Hnd']; subst.
  cbn [flat_map existsb]. rewrite !length_app, (IH Hnd').
  unfold pageFields at 1. cbn [filter].
  destruct (Z.eqb_spec (page f) p) as [E | E]; cbn [orb].
  - destruct (existsb (Z.eqb (page f)) ps) eqn:Ex.
    + apply existsb_page in Ex. subst p. contradiction.
    + cbn [List.length]. fold (pageFields fields p). lia.
  - fold (pageFields fields p). lia.
Qed.

Lemma rendered_length fields : forall ps,
  NoDup ps ->
  List.length (flat_map (pageFields fields) ps) =
  List.length (filter (fun f => existsb (Z.eqb (page f)) ps) fields).
Proof.
  induction fields as [| f fields IH]; intros ps Hnd.
  - cbn [filter List.length]. induction ps as [| p ps IHp]; [reflexivity |].
    cbn [flat_map]. rewrite length_app. inversion Hnd; subst.
    rewrite IHp by assumption. reflexivity.
  - rewrite rendered_cons by assumption. cbn [filter].
    destruct (existsb (Z.eqb (page f)) ps); cbn [List.length];
      rewrite (IH ps Hnd); reflexivity.
Qed.

(** X9. The viewer shows a field exactly when its page is one of
    [1 .. numPages], and then once: a field on any other page is in the
    list, and is sent for signing, without being shown. *)
Theorem each_field_shown_once (numPages : nat) (fields : list FieldData) :
  (forall f, In f (renderedFields numPages fields) <->
             In f fields /\ (1 <= page f <= Z.of_nat numPages)%Z) /\
  List.length (renderedFields numPages fields) =
  List.length (filter (fun f => (1 <=? page f)%Z && (page f <=? Z.of_nat numPages)%Z)
                 fields).
Proof.
  split.
  - intros f. unfold renderedFields. rewrite in_flat_map. split.
    + intros (p & Hp & Hf). unfold pageFields in Hf. apply filter_In in Hf.
      destruct Hf as [Hf E]. apply Z.eqb_eq in E. subst p.
      apply pageNumbers_In in Hp. tauto.
    + intros [Hf Hp]. exists (page f). split; [now apply pageNumbers_In |].
      unfold pageFields. apply filter_In. split; [assumption | apply Z.eqb_refl].
  - unfold renderedFields.
    rewrite rendered_length by apply pageNumbers_NoDup.
    f_equal. apply filter_ext. intros f.
    destruct (existsb (Z.eqb (page f)) (pageNumbers numPages)) eqn:Ex.
    + apply existsb_page, pageNumbers_In in Ex. symmetry.
      apply andb_true_iff. split; [apply Z.leb_le | apply Z.leb_le]; lia.
    + symmetry. apply andb_false_iff.
      destruct (Z.leb_spec 1 (page f)); [| now left].
      destruct (Z.leb_spec (page f) (Z.of_nat numPages)); [| now right].
      assert (Hin : In (page f) (pageNumbers numPages))
        by (apply pageNumbers_In; lia).
      apply existsb_page in Hin. congruence.
Qed.

(** X10. While a placed field is dragged the overlay previews the first
    field of the list with the dragged id, which exists exactly when the id
    is in the list; while a tool is dragged there is no such field. *)
Theorem overlay_field (a : Active) (fields : list FieldData) :
  (isPlaced a = false -> getActiveField (Some (handleDragStart a)) fields = None) /\
  (isPlaced a = true -> In (activeId a) (map id fields) ->
   exists f, getActiveField (Some (handleDragStart a)) fields = Some f /\
             In f fields /\ id f = activeId a) /\
  (isPlaced a = true -> ~ In (activeId a) (map id fields) ->
   getActiveField (Some (handleDragStart a)) fields = None).
Proof.
  unfold getActiveField, handleDragStart. cbn [itemIsPlaced itemId].
  split; [now intros -> |]. split.
  - intros -> Hin. cbn [negb].
    destruct (find (fun f => String.eqb (id f) (activeId a)) fields) as [f |] eqn:E.
    + apply find_some in E. destruct E as [Hf E]. apply String.eqb_eq in E.
      now exists f.
    + exfalso. apply in_map_iff in Hin. destruct Hin as (g & Hg & Hgin).
      pose proof (find_none _ _ E g Hgin) as Hn. cbn beta in Hn.
      rewrite Hg, String.eqb_refl in Hn. discriminate.
  - intros -> Hnot. cbn [negb].
    destruct (find (fun f => String.eqb (id f) (activeId a)) fields) as [f |] eqn:E;
      [| reflexivity].
    apply find_some in E. destruct E as [Hf E]. apply String.eqb_eq in E.
    exfalso. apply Hnot. rewrite <- E. now apply in_map.
Qed.

Lemma overlay_field_witness :
  exists f,
    getActiveField (Some (handleDragStart (active fieldDrag))) (run session) = Some f /\
    In f (run session) /\ id f = "field-1"%string.
Proof.
  destruct (overlay_field (active fieldDrag) (run session)) as (_ & Hsome & _).
  apply Hsome; [reflexivity |]. vm_compute. now left.
Defined.

End ViewerProofs.

(** * More on the annotation renderer *)

Module ServerMore.
Import Server ServerProofs.

(** ** Which requests fail *)

Lemma processField_done lib pages field :
  (1 <= page field)%Z -> exists pages', processField lib pages field = Done pages'.
Proof.
  intros Hpos.
  destruct (nth_error pages (Z.to_nat (page field - 1))) as [pg |] eqn:E.
  - rewrite (processField_draws lib pages field pg Hpos E). eauto.
  - rewrite processField_skips; [eauto |]. apply nth_error_None in E. lia.
Qed.

Lemma processFields_done_iff lib l : forall pages,
  (exists pages', processFields lib pages l = Done pages') <->
  Forall (fun f => (1 <= page f)%Z) l.
Proof.
  induction l as [| f l IH]; intros pages; simpl.
  - split; [constructor | eauto].
  - split.
    + intros [pages' H].
      destruct (Z.le_gt_cases 1 (page f)) as [Hpos | Hlow].
      * destruct (processField lib pages f) as [p | e] eqn:E; simpl in H;
          [| discriminate].
        constructor; [assumption |]. apply (IH p). eauto.
      * rewrite processField_throws in H by lia. discriminate.
    + intros Hall. inversion Hall as [| ? ? Hpos Hrest]; subst.
      destruct (processField_done lib pages f Hpos) as [p ->]. simpl.
      now apply IH.
Qed.

(** X11. The loop over the fields runs to its end exactly when every page
    number is at least 1; otherwise it throws, and what it throws is the
    error of reading the size of a missing page.  (The drawing calls of the
    library are taken not to throw.) *)
Theorem loop_completes_iff lib pages l :
  ((exists pages', processFields lib pages l = Done pages') <->
   Forall (fun f => (1 <= page f)%Z) l) /\
  (forall e, processFields lib pages l = Thrown e -> e = getSizeOfUndefined).
Proof.
  split; [apply processFields_done_iff |].
  revert pages. induction l as [| f l IH]; intros pages e; simpl;
    [discriminate |].
  destruct (processField lib pages f) as [p | e'] eqn:E; simpl.
  - apply IH.
  - intros [= <-]. unfold processField in E.
    destruct (page f - 1 >=? Z.of_nat (List.length pages))%Z; [discriminate |].
    destruct (pageAt pages (page f - 1)); [discriminate |].
    now injection E as <-.
Qed.


(** ** What annotation leaves alone *)

Lemma drawOn_other pages n ms j :
  j <> n -> nth_error (drawOn pages n ms) j = nth_error pages j.
Proof.
  revert n j. induction pages as [| pg pages IH]; intros [| n] [| j] Hne;
    simpl; try reflexivity; try contradiction.
  apply IH. congruence.
Qed.

(** X13. Processing a field changes no page but the one the field
    names. *)
Theorem other_pages_untouched lib pages field pages' j :
  processField lib pages field = Done pages' ->
  j <> Z.to_nat (page field - 1) ->
  nth_error pages' j = nth_error pages j.
Proof.
  unfold processField.
  destruct (page field - 1 >=? Z.of_nat (List.length pages))%Z.
  - now intros [= <-].
  - destruct (pageAt pages (page field - 1)); [| discriminate].
    intros [= <-] Hne. now apply drawOn_other.
Qed.

Lemma other_pages_untouched_witness :
  nth_error [addMarks (mkPage 600 800 [])
               (drawField demoLibrary nameField
                  (pointBox nameField (mkPage 600 800 [])));
             mkPage 300 400 []] 1 =
  nth_error [mkPage 600 800 []; mkPage 300 400 []] 1.
Proof.
  apply (other_pages_untouched demoLibrary
           [mkPage 600 800 []; mkPage 300 400 []] nameField _ 1%nat eq_refl).
  vm_compute. discriminate.
Defined.

Lemma processField_keeps lib pages field pages' j pg :
  processField lib pages field = Done pages' ->
  nth_error pages j = Some pg ->
  exists pg', nth_error pages' j = Some pg' /\
    pageWidth pg' = pageWidth pg /\ pageHeight pg' = pageHeight pg /\
    exists added, marks pg' = marks pg ++ added.
Proof.
  assert (Hsame : forall l : list PDFPage, nth_error l j = Some pg ->
            exists pg', nth_error l j = Some pg' /\
              pageWidth pg' = pageWidth pg /\ pageHeight pg' = pageHeight pg /\
              exists added, marks pg' = marks pg ++ added).
  { intros l Hl. exists pg. repeat split; [assumption |].
    exists []. now rewrite app_nil_r. }
  unfold processField.
  destruct (page field - 1 >=? Z.of_nat (List.length pages))%Z.
  - intros [= <-] Hj. now apply Hsame.
  - destruct (pageAt pages (page field - 1)) as [tg |]; [| discriminate].
    intros [= <-] Hj.
    destruct (Nat.eq_dec j (Z.to_nat (page field - 1))) as [-> | Hne].
    + rewrite (drawOn_nth _ _ _ _ Hj). eexists. split; [reflexivity |].
      repeat split. cbn [addMarks marks]. eauto.
    + apply Hsame. now rewrite drawOn_other.
Qed.

(** X14. Annotation only adds: whatever the fields, the document keeps its
    number of pages, every page keeps its size, and the marks a page had
    are still there, in order, before the new ones. *)
Theorem annotation_only_adds lib l : forall pages pages',
  processFields lib pages l = Done pages' ->
  List.length pages' = List.length pages /\
  forall j pg, nth_error pages j = Some pg ->
    exists pg', nth_error pages' j = Some pg' /\
      pageWidth pg' = pageWidth pg /\ pageHeight pg' = pageHeight pg /\
      exists added, marks pg' = marks pg ++ added.
Proof.
  intros pages pages' Hrun.
  split; [eapply processFields_length; eassumption |].
  revert pages pages' Hrun.
  induction l as [| f l IH]; intros pages pages'; simpl.
  - intros [= <-] j pg Hj. exists pg. repeat split; [assumption |].
    exists []. now rewrite app_nil_r.
  - destruct (processField lib pages f) as [p | e] eqn:E; simpl;
      [| discriminate].
    intros Hrest j pg Hj.
    destruct (processField_keeps lib pages f p j pg E Hj)
      as (pg1 & Hj1 & Hw1 & Hh1 & m1 & Hm1).
    destruct (IH p pages' Hrest j pg1 Hj1)
      as (pg2 & Hj2 & Hw2 & Hh2 & m2 & Hm2).
    exists pg2. repeat split; try congruence.
    exists (m1 ++ m2). now rewrite Hm2, Hm1, app_assoc.
Qed.

Lemma annotation_only_adds_witness :
  List.length [mkPage 600 800
                 (drawField demoLibrary nameField
                    (pointBox nameField (mkPage 600 800 [])))] =
  List.length [mkPage 600 800 []].
Proof.
  apply (annotation_only_adds demoLibrary [nameField; farField; gifField]
           [mkPage 600 800 []] _ eq_refl).
Defined.

(** ** Where the marks go *)

Lemma half_eq (q : Q) : q / 2 == q * (1 # 2).
Proof. field. Qed.

(** [q] percent of a length [L >= 0]. *)
Lemma percent_nonneg (q L : Q) : 0 <= q -> 0 <= L -> 0 <= q / 100 * L.
Proof.
  intros Hq HL. assert (E : q / 100 * L == q * L * (1 # 100)) by field.
  rewrite E. pose proof (Qmult_le_0_compat q L Hq HL). lra.
Qed.

Lemma percent_sum_le (p q L : Q) :
  p + q <= 100 -> 0 <= L -> p / 100 * L + q / 100 * L <= L.
Proof.
  intros Hpq HL.
  assert (E : p / 100 * L + q / 100 * L == (p + q) * L * (1 # 100)) by field.
  rewrite E. pose proof (Qmult_le_compat_r (p + q) 100 L Hpq HL). lra.
Qed.

(** X15. A field that lies within the page in percent gets a box that lies
    within the page in points: with [0 <= x], [0 <= y], [x + width <= 100],
    [y + height <= 100] and sizes that are not negative, the box has
    [0 <= x], [x + wPoints <= pageWidth], [0 <= y] and
    [y + hPoints <= pageHeight]; its top edge is [y] percent of the page
    height below the top of the page. *)
Theorem box_within_page field pg :
  0 <= pageWidth pg -> 0 <= pageHeight pg ->
  0 <= x field -> 0 <= y field ->
  0 <= width field -> 0 <= height field ->
  x field + width field <= 100 -> y field + height field <= 100 ->
  let b := pointBox field pg in
  0 <= bx b /\ bx b + wPoints b <= pageWidth pg /\
  0 <= by_ b /\ by_ b + hPoints b <= pageHeight pg /\
  0 <= wPoints b /\ 0 <= hPoints b /\
  pageHeight pg - (by_ b + hPoints b) == (y field / 100) * pageHeight pg.
Proof.
  intros Hpw Hph Hx Hy Hw Hh Hxw Hyh b. subst b. unfold pointBox.
  cbn [bx by_ wPoints hPoints].
  pose proof (percent_nonneg (x field) (pageWidth pg) Hx Hpw).
  pose proof (percent_nonneg (width field) (pageWidth pg) Hw Hpw).
  pose proof (percent_nonneg (y field) (pageHeight pg) Hy Hph).
  pose proof (percent_nonneg (height field) (pageHeight pg) Hh Hph).
  pose proof (percent_sum_le (x field) (width field) (pageWidth pg) Hxw Hpw).
  pose proof (percent_sum_le (y field) (height field) (pageHeight pg) Hyh Hph).
  repeat split; lra.
Qed.

Lemma box_within_page_witness :
  0 <= bx (pointBox nameField (mkPage 600 800 [])) /\
  bx (pointBox nameField (mkPage 600 800 []))
  + wPoints (pointBox nameField (mkPage 600 800 [])) <= 600.
Proof.
  destruct (box_within_page nameField (mkPage 600 800 [])
              ltac:(vm_compute; discriminate) ltac:(vm_compute; discriminate)
              ltac:(vm_compute; discriminate) ltac:(vm_compute; discriminate)
              ltac:(vm_compute; discriminate) ltac:(vm_compute; discriminate)
              ltac:(vm_compute; discriminate) ltac:(vm_compute; discriminate))
    as (H0 & H1 & _).
  split; [exact H0 | exact H1].
Defined.

(** X16. An embedded image is drawn once, at the size the library's
    [scaleToFit] returns for the box, with equal margins left and right and
    equal margins above and below; when that size is within the box, so is
    the image. *)
Theorem image_is_centred lib field b img :
  type field = "signature"%string \/ type field = "image"%string ->
  truthy (content field) = true ->
  embedImage lib (stringOf (content field)) = Some img ->
  let dims := scaleToFit lib img (wPoints b) (hPoints b) in
  exists px py,
    drawField lib field b = [DrawImage img px py (fst dims) (snd dims)] /\
    px - bx b == (bx b + wPoints b) - (px + fst dims) /\
    py - by_ b == (by_ b + hPoints b) - (py + snd dims) /\
    (fst dims <= wPoints b ->
     bx b <= px /\ px + fst dims <= bx b + wPoints b) /\
    (snd dims <= hPoints b ->
     by_ b <= py /\ py + snd dims <= by_ b + hPoints b).
Proof.
  intros Hty Htruthy Himg dims.
  exists (bx b + (wPoints b - fst dims) / 2), (by_ b + (hPoints b - snd dims) / 2).
  split.
  - unfold drawField. rewrite Htruthy, Himg.
    destruct Hty as [-> | ->]; reflexivity.
  - set (dw := wPoints b - fst dims). set (dh := hPoints b - snd dims).
    pose proof (half_eq dw) as Ew. pose proof (half_eq dh) as Eh.
    rewrite Ew, Eh. subst dw dh. repeat split; intros; lra.
Qed.

Lemma image_is_centred_witness :
  exists px py,
    drawField demoLibrary
      {| id := "field-5"; type := "image"; x := 10; y := 10; width := 50;
         height := 50; page := 1; content := Some "data:image/png;base64,iVBORw0KGgo="%string |}
      (mkBox 60 320 300 400)
    = [DrawImage (mkImage 100 50) px py
         (fst (fitInside (mkImage 100 50) 300 400))
         (snd (fitInside (mkImage 100 50) 300 400))] /\
    px - 60 == (60 + 300) - (px + fst (fitInside (mkImage 100 50) 300 400)).
Proof.
  destruct (image_is_centred demoLibrary
              {| id := "field-5"; type := "image"; x := 10; y := 10; width := 50;
                 height := 50; page := 1;
                 content := Some "data:image/png;base64,iVBORw0KGgo="%string |}
              (mkBox 60 320 300 400) (mkImage 100 50)
              (or_intror eq_refl) eq_refl eq_refl)
    as (px & py & Hdraw & Hx & _).
  exists px, py. split; [exact Hdraw | exact Hx].
Defined.

(** X17. A radio field gets one circle: its centre is the centre of the
    box, its radius is half the smaller side, and it does not reach beyond
    the box on any side. *)
Theorem radio_circle_in_box lib field b :
  type field = "radio"%string ->
  let cx := bx b + wPoints b / 2 in
  let cy := by_ b + hPoints b / 2 in
  let r := Qmin (wPoints b) (hPoints b) / 2 in
  drawField lib field b =
    [DrawEllipse cx cy r r (rgb 0.92 0.28 0.6) 1 (rgb 0.92 0.28 0.6) 0.1] /\
  bx b <= cx - r /\ cx + r <= bx b + wPoints b /\
  by_ b <= cy - r /\ cy + r <= by_ b + hPoints b /\
  (r == wPoints b / 2 \/ r == hPoints b / 2).
Proof.
  intros Hty cx cy r. split.
  - unfold drawField. rewrite Hty. reflexivity.
  - subst cx cy r.
    rewrite (half_eq (wPoints b)), (half_eq (hPoints b)),
      (half_eq (Qmin (wPoints b) (hPoints b))).
    destruct (Q.min_spec (wPoints b) (hPoints b)) as [[Hlt E] | [Hle E]];
      rewrite E; repeat split; lra.
Qed.

Lemma radio_circle_in_box_witness :
  drawField demoLibrary pageZeroField (mkBox 60 680 120 40) =
  [DrawEllipse (60 + 120 / 2) (680 + 40 / 2) (Qmin 120 40 / 2) (Qmin 120 40 / 2)
     (rgb 0.92 0.28 0.6) 1 (rgb 0.92 0.28 0.6) 0.1].
Proof.
  apply (radio_circle_in_box demoLibrary pageZeroField (mkBox 60 680 120 40) eq_refl).
Defined.

(** X18. A field whose type is none of the five known ones gets no mark;
    with a page number of at least 1 it leaves the document as it is and
    does not fail the request. *)
Theorem unknown_type_no_mark lib field :
  type field <> "signature"%string -> type field <> "image"%string ->
  type field <> "text"%string -> type field <> "date"%string ->
  type field <> "radio"%string ->
  (forall b, drawField lib field b = []) /\
  ((1 <= page field)%Z ->
   forall pages, processField lib pages field = Done pages).
Proof.
  intros Hs Hi Ht Hd Hr.
  assert (Hnone : forall b, drawField lib field b = []).
  { intros b. unfold drawField.
    apply String.eqb_neq in Hs, Hi, Ht, Hd, Hr.
    now rewrite Hs, Hi, Ht, Hd, Hr. }
  split; [exact Hnone |]. intros Hpos pages.
  destruct (nth_error pages (Z.to_nat (page field - 1))) as [pg |] eqn:E.
  - rewrite (processField_draws lib pages field pg Hpos E), Hnone.
    now rewrite drawOn_nil.
  - apply processField_skips. apply nth_error_None in E. lia.
Qed.

Lemma unknown_type_no_mark_witness :
  processField demoLibrary [mkPage 600 800 []]
    {| id := "field-6"; type := "checkbox"; x := 10; y := 10; width := 20;
       height := 5; page := 1; content := None |}
  = Done [mkPage 600 800 []].
Proof.
  destruct (unknown_type_no_mark demoLibrary
              {| id := "field-6"; type := "checkbox"; x := 10; y := 10;
                 width := 20; height := 5; page := 1; content := None |}
              ltac:(discriminate) ltac:(discriminate) ltac:(discriminate)
              ltac:(discriminate) ltac:(discriminate))
    as [_ Hsame].
  apply Hsame. simpl. lia.
Defined.

(** X19. A string body that does not parse is not refused: the request is
    handled as one without a PDF and without fields, so the sample file,
    or the blank document when there is none, is signed as it is. *)
Theorem unparsable_body_signs_fallback lib s pages :
  jsonParse lib s = None ->
  let fallback :=
    match sampleFile lib with Some file => file | None => blankPdf lib end in
  load lib fallback = Done pages ->
  signPdf lib (BodyString s) =
  Success ("data:application/pdf;base64," ++ base64Encode lib (save lib pages))
          (sha256Hex lib fallback) (sha256Hex lib (save lib pages)).
Proof.
  intros Hparse fallback Hload.
  unfold signPdf, annotate, parseBody. rewrite Hparse.
  unfold pdfBufferOf, fieldListOf. cbn [pdfBase64 fields truthy].
  fold fallback. rewrite Hload. reflexivity.
Qed.

Lemma unparsable_body_signs_fallback_witness :
  signPdf demoLibrary (BodyString "{not json") =
  Success "data:application/pdf;base64," "" "".
Proof.
  apply (unparsable_body_signs_fallback demoLibrary "{not json"
           [mkPage 600 800 []] eq_refl eq_refl).
Defined.

(** ** The earlier loop and the present one *)

Lemma earlier_marks lib field b ms :
  Earlier.drawField lib field b = Some ms -> drawField lib field b = ms.
Proof.
  unfold Earlier.drawField, drawField, embedImage.
  destruct (String.eqb (type field) "signature" || String.eqb (type field) "image").
  - destruct (truthy (content field)); [| now intros [= <-]].
    destruct (startsWith (stringOf (content field)) "data:image/png").
    + destruct (embedPng lib (stringOf (content field))); [| discriminate].
      now intros [= <-].
    + destruct (startsWith (stringOf (content field)) "data:image/jpeg"
                || startsWith (stringOf (content field)) "data:image/jpg").
      * destruct (embedJpg lib (stringOf (content field))); [| discriminate].
        now intros [= <-].
      * now intros [= <-].
  - destruct (String.eqb (type field) "text"); [now intros [= <-] |].
    destruct (String.eqb (type field) "date"); [now intros [= <-] |].
    destruct (String.eqb (type field) "radio"); now intros [= <-].
Qed.

Lemma earlier_field lib pages field pages' :
  Earlier.processField lib pages field = Some pages' ->
  processField lib pages field = Done pages'.
Proof.
  unfold Earlier.processField. unfold pageAt at 1.
  destruct (Z.ltb_spec (page field - 1) 0) as [Hneg | Hpos]; [discriminate |].
  destruct (nth_error pages (Z.to_nat (page field - 1))) as [pg |] eqn:E;
    [| discriminate].
  destruct (Earlier.drawField lib field (pointBox field pg)) as [ms |] eqn:Em;
    [| discriminate].
  intros [= <-].
  rewrite (processField_draws lib pages field pg ltac:(lia) E).
  now rewrite (earlier_marks lib field _ ms Em).
Qed.

(** X24. The present loop extends the earlier one: on every field list
    where the earlier loop runs to its end, the present loop ends with the
    same pages; the earlier loop throws on a field whose page number
    exceeds the page count, which the present one skips. *)
Theorem present_loop_extends_earlier lib l : forall pages,
  (forall pages', Earlier.processFields lib pages l = Some pages' ->
                  processFields lib pages l = Done pages') /\
  (forall field, (page field > Z.of_nat (List.length pages))%Z ->
                 Earlier.processField lib pages field = None /\
                 processField lib pages field = Done pages).
Proof.
  intros pages. split.
  - revert pages. induction l as [| f l IH]; intros pages pages'; simpl.
    + now intros [= <-].
    + destruct (Earlier.processField lib pages f) as [p |] eqn:E;
        [| discriminate].
      rewrite (earlier_field lib pages f p E). simpl. apply IH.
  - intros field Hbig. split; [| now apply processField_skips].
    unfold Earlier.processField, pageAt.
    destruct (Z.ltb_spec (page field - 1) 0); [reflexivity |].
    destruct (nth_error pages (Z.to_nat (page field - 1))) eqn:E;
      [| reflexivity].
    assert (Z.to_nat (page field - 1) < List.length pages)%nat
      by (apply nth_error_Some; congruence).
    lia.
Qed.

Lemma present_loop_extends_earlier_witness :
  processFields demoLibrary [mkPage 600 800 []] [nameField] =
    Done [mkPage 600 800
            (drawField demoLibrary nameField
               (pointBox nameField (mkPage 600 800 [])))] /\
  Earlier.processField demoLibrary [mkPage 600 800 []] farField = None.
Proof.
  destruct (present_loop_extends_earlier demoLibrary [nameField]
              [mkPage 600 800 []]) as [Hsame Hgap].
  split.
  - apply Hsame. reflexivity.
  - apply (Hgap farField). simpl. lia.
Defined.

End ServerMore.

(** * The placement model, event by event *)

Module SessionProofs.
Import Client ClientProofs Session.

(** ** One handler invocation *)

Lemma resized_wellSized props st cx cy f :
  wellSized f -> x f == x props -> y f == y props ->
  wellSized {| id := id f; type := type f; x := x f; y := y f;
               width := fst (onPointerMove props st cx cy);
               height := snd (onPointerMove props st cx cy);
               page := page f |}.
Proof.
  unfold wellSized, onPointerMove. cbn [fst snd x y width height].
  intros (Hx & Hy & Hw & Hh & Hxw & Hyh) Ex Ey.
  set (dw := width props + _). set (dh := height props + _).
  pose proof (min_max_upper (100 - x props) 5 dw).
  pose proof (min_max_upper (100 - y props) 2 dh).
  assert (5 <= Qmin (100 - x props) (Qmax 5 dw))
    by (apply min_max_lower; lra).
  assert (2 <= Qmin (100 - y props) (Qmax 2 dh))
    by (apply min_max_lower; lra).
  repeat split; lra.
Qed.

Lemma handleResize_regular props st cx cy l :
  Forall wellSized l -> cornerCurrent props l ->
  Forall wellSized
    (handleResize (id props) (fst (onPointerMove props st cx cy))
       (snd (onPointerMove props st cx cy)) l) /\
  cornerCurrent props
    (handleResize (id props) (fst (onPointerMove props st cx cy))
       (snd (onPointerMove props st cx cy)) l).
Proof.
  intros Hl Hcur. unfold handleResize. split.
  - rewrite Forall_map. rewrite Forall_forall in Hl |- *. intros f Hf.
    destruct (String.eqb_spec (id f) (id props)) as [E | E]; [| auto].
    destruct (Hcur f Hf E) as [Ex Ey].
    now apply resized_wellSized; [apply Hl | |].
  - intros g Hg Hid. apply in_map_iff in Hg. destruct Hg as (f & <- & Hf).
    destruct (String.eqb_spec (id f) (id props)) as [E | E];
      cbn [id x y] in *; now apply Hcur.
Qed.

Lemma resizeMoves_regular props st moves : forall l,
  Forall wellSized l -> cornerCurrent props l ->
  Forall wellSized (resizeMoves props st moves l).
Proof.
  induction moves as [| [cx cy] moves IH]; intros l Hl Hcur.
  - exact Hl.
  - rewrite resizeMoves_cons.
    destruct (handleResize_regular props st cx cy l Hl Hcur) as [Hl' Hcur'].
    now apply IH.
Qed.

Lemma handle_wellSized prev e :
  Forall wellSized prev -> regular prev e -> Forall wellSized (handle prev e).
Proof.
  intros Hprev Hreg.
  destruct e as [newId event | props st moves | target]; cbn [handle regular] in *.
  - unfold handleDragEnd.
    destruct (over event) as [ov |]; [| assumption].
    destruct (translated (active event)) as [r |]; [| assumption].
    destruct (isTool (active event)).
    + apply Forall_app. split; [assumption |].
      constructor; [apply newField_wellSized | constructor].
    + destruct (isPlaced (active event)); [| assumption].
      rewrite Forall_map. eapply Forall_impl; [| exact Hprev].
      intros f. apply movedField_wellSized.
  - destruct Hreg as [_ Hcur]. now apply resizeMoves_regular.
  - unfold handleDeleteField. rewrite Forall_forall in Hprev |- *.
    intros f Hf. apply filter_In in Hf. now apply Hprev.
Qed.

Lemma replay_wellSized events :
  regularFrom [] events -> Forall wellSized (replay events).
Proof.
  unfold replay. generalize (@nil FieldData) (Forall_nil wellSized).
  induction events as [| e events IH]; intros prev Hprev Hreg; simpl.
  - assumption.
  - destruct Hreg as [He Hrest]. apply IH; [| assumption].
    now apply handle_wellSized.
Qed.

(** ** The claims on bounds *)


Lemma calmSession_regular : regularFrom [] calmSession.
Proof.
  cbn [regularFrom calmSession].
  split; [split; vm_compute; discriminate |].
  split; [split; [split; vm_compute; discriminate |] |].
  - intros f Hf _. vm_compute in Hf. destruct Hf as [<- | []].
    split; reflexivity.
  - split; [split; vm_compute; discriminate | exact I].
Qed.






End SessionProofs.

(** * The loop body with a font *)

Module FontProofs.
Import Server ServerProofs WithFont.

Lemma drawOn_app pages n ms1 ms2 :
  drawOn (drawOn pages n ms1) n ms2 = drawOn pages n (ms1 ++ ms2).
Proof.
  revert n. induction pages as [| pg pages IH]; intros [| n]; simpl;
    try reflexivity.
  - unfold addMarks; simpl. now rewrite app_assoc.
  - now rewrite IH.
Qed.

(** With a font, a body that completes has done what the body without a
    font does. *)
Lemma completed_as_without_font lib font pages field pages' :
  WithFont.processField lib font pages field = Completed pages' ->
  Server.processField lib pages field = Done pages'.
Proof.
  unfold WithFont.processField, Server.processField.
  destruct (page field - 1 >=? Z.of_nat (List.length pages))%Z;
    [now intros [= <-] |].
  destruct (pageAt pages (page field - 1)) as [pg |]; [| discriminate].
  unfold drawField.
  destruct (String.eqb (type field) "signature" || String.eqb (type field) "image");
    [now intros [= <-] |].
  destruct (String.eqb (type field) "text"); [| now intros [= <-]].
  destruct (truthy (content field)); [| now intros [= <-]].
  destruct (encodes font (stringOf (content field))); [| discriminate].
  intros [= <-]. now rewrite drawOn_app.
Qed.




End FontProofs.

(** * From the viewer to the signed document *)

Module EndToEnd.
Import Client Viewer.

(** ** The pages named by the fields *)

Lemma handleResize_pages target w h l :
  map page (handleResize target w h l) = map page l.
Proof.
  unfold handleResize. rewrite map_map. apply map_ext.
  intros f. destruct (String.eqb (id f) target); reflexivity.
Qed.

Lemma resizeMoves_pages props st moves : forall l,
  map page (resizeMoves props st moves l) = map page l.
Proof.
  induction moves as [| [cx cy] moves IH]; intros l; [reflexivity |].
  rewrite ClientProofs.resizeMoves_cons, IH. apply handleResize_pages.
Qed.

Lemma Forall_pages (P : Z -> Prop) (l : list FieldData) :
  Forall (fun f => P (page f)) l <-> Forall P (map page l).
Proof. now rewrite Forall_map. Qed.

Lemma step_on_document numPages prev a :
  onDocument numPages a ->
  Forall (fun f => (1 <= page f <= Z.of_nat numPages)%Z) prev ->
  Forall (fun f => (1 <= page f <= Z.of_nat numPages)%Z) (step prev a).
Proof.
  intros Hon Hprev.
  destruct a as [newId event | i st moves | target]; simpl in *.
  - unfold handleDragEnd.
    destruct (over event) as [ov |]; [| assumption].
    destruct (translated (active event)) as [r |]; [| assumption].
    destruct (isTool (active event)).
    + apply Forall_app. split; [assumption |]. now constructor.
    + destruct (isPlaced (active event)); [| assumption].
      rewrite Forall_map. eapply Forall_impl; [| exact Hprev].
      intros f Hf. unfold movedField.
      destruct (String.eqb (id f) (activeId (active event))); assumption.
  - destruct (nth_error prev i) as [props |]; [| assumption].
    apply (Forall_pages (fun p => (1 <= p <= Z.of_nat numPages)%Z)).
    rewrite resizeMoves_pages.
    now apply (Forall_pages (fun p => (1 <= p <= Z.of_nat numPages)%Z)).
  - unfold handleDeleteField. rewrite Forall_forall in Hprev |- *.
    intros f Hf. apply filter_In in Hf. now apply Hprev.
Qed.

Lemma run_on_document numPages actions :
  Forall (onDocument numPages) actions ->
  Forall (fun f => (1 <= page f <= Z.of_nat numPages)%Z) (run actions).
Proof.
  unfold run. generalize (@nil FieldData) (Forall_nil (fun f : FieldData =>
    (1 <= page f <= Z.of_nat numPages)%Z)).
  induction actions as [| a actions IH]; intros prev Hprev Hall; simpl.
  - assumption.
  - inversion Hall; subst. apply IH; [| assumption].
    now apply step_on_document.
Qed.

(** ** Signing what the viewer sends *)

(** X20. When every drop was on a page of the document, the request built
    from the field list is answered with success whenever the PDF loads:
    no field makes the loop throw, and with a document of [numPages] pages
    every field names a page that exists. *)
Theorem viewer_request_is_signed lib numPages actions pdfBase64 pages :
  Forall (onDocument numPages) actions ->
  let reqBody := signRequest pdfBase64 (run actions) in
  Server.load lib (Server.pdfBufferOf lib (Server.parseBody lib reqBody)) =
    Server.Done pages ->
  (exists pages',
     Server.processFields lib pages (map requestField (run actions)) =
       Server.Done pages' /\
     Server.signPdf lib reqBody =
       Server.Success
         ("data:application/pdf;base64," ++
          Server.base64Encode lib (Server.save lib pages'))
         (Server.sha256Hex lib
            (Server.pdfBufferOf lib (Server.parseBody lib reqBody)))
         (Server.sha256Hex lib (Server.save lib pages'))) /\
  (List.length pages = numPages ->
   forall f, In f (run actions) ->
     exists pg, Server.pageAt pages (Server.page (requestField f) - 1) = Some pg).
Proof.
  intros Hon reqBody Hload.
  pose proof (run_on_document numPages actions Hon) as Hrange.
  split.
  - assert (Hall : Forall (fun f => (1 <= Server.page f)%Z)
                     (map requestField (run actions))).
    { rewrite Forall_map. eapply Forall_impl; [| exact Hrange].
      intros f Hf. cbn beta in Hf. cbn [requestField Server.page]. lia. }
    apply (ServerMore.processFields_done_iff lib _ pages) in Hall.
    destruct Hall as [pages' Hrun]. exists pages'. split; [assumption |].
    unfold Server.signPdf, Server.annotate. rewrite Hload.
    cbn [Server.bind]. subst reqBody.
    cbn [signRequest Server.parseBody Server.fieldListOf Server.fields].
    now rewrite Hrun.
  - intros Hlen f Hf. rewrite Forall_forall in Hrange.
    specialize (Hrange f Hf). cbn [requestField Server.page].
    unfold Server.pageAt.
    destruct (Z.ltb_spec (page f - 1) 0); [lia |].
    destruct (nth_error pages (Z.to_nat (page f - 1))) as [pg |] eqn:E;
      [eauto |].
    apply nth_error_None in E. lia.
Qed.

Lemma viewer_request_is_signed_witness :
  exists pages',
    Server.processFields Server.demoLibrary [Server.mkPage 600 800 []]
      (map requestField (run [DragEnd "field-1" toolDrop])) = Server.Done pages' /\
    Server.signPdf Server.demoLibrary
      (signRequest "JVBERi0xLjcK" (run [DragEnd "field-1" toolDrop])) =
    Server.Success
      ("data:application/pdf;base64," ++
       Server.base64Encode Server.demoLibrary
         (Server.save Server.demoLibrary pages'))
      (Server.sha256Hex Server.demoLibrary
         (Server.pdfBufferOf Server.demoLibrary
            (Server.parseBody Server.demoLibrary
               (signRequest "JVBERi0xLjcK" (run [DragEnd "field-1" toolDrop])))))
      (Server.sha256Hex Server.demoLibrary
         (Server.save Server.demoLibrary pages')).
Proof.
  refine (proj1 (viewer_request_is_signed Server.demoLibrary 1
                   [DragEnd "field-1" toolDrop] "JVBERi0xLjcK"
                   [Server.mkPage 600 800 []] _ eq_refl)).
  constructor; [simpl; lia | constructor].
Defined.

(** X21. A field placed with the viewer has no content when it is sent,
    so it gets exactly one mark and never a text or an image: a red
    outline for a signature or an image, a blue outline for a text, the
    filled rectangle for a date, the circle for a radio. *)
Theorem viewer_field_one_placeholder lib item b :
  Server.drawField lib (requestField item) b =
  let x := Server.bx b in
  let y := Server.by_ b in
  let w := Server.wPoints b in
  let h := Server.hPoints b in
  match type item with
  | signature | image =>
    [Server.DrawRectangle x y w h (Server.rgb 1 0 0) 1 None]
  | text =>
    [Server.DrawRectangle x y w h (Server.rgb 0 0 1) 1 None]
  | date =>
    [Server.DrawRectangle x y w h (Server.rgb 0.96 0.62 0.04) 1
       (Some (Server.rgb 0.96 0.62 0.04, 0.1))]
  | radio =>
    [Server.DrawEllipse (x + w / 2) (y + h / 2) (Qmin w h / 2) (Qmin w h / 2)
       (Server.rgb 0.92 0.28 0.6) 1 (Server.rgb 0.92 0.28 0.6) 0.1]
  end.
Proof.
  unfold Server.drawField. cbn [requestField Server.type Server.content].
  destruct (type item); reflexivity.
Qed.

(** X22. Every field of a list reached through regular events (non-zero
    page rectangles and page elements, every pointer move finding the
    fields of its gesture at the corner captured at pointer-down) is drawn
    inside its page: on a page of non-negative size the box of the field
    sent has [0 <= x], [x + wPoints <= pageWidth], [0 <= y] and
    [y + hPoints <= pageHeight]. *)
Theorem viewer_field_drawn_inside events f pg :
  Session.regularFrom [] events ->
  In f (Session.replay events) ->
  0 <= Server.pageWidth pg -> 0 <= Server.pageHeight pg ->
  let b := Server.pointBox (requestField f) pg in
  0 <= Server.bx b /\
  Server.bx b + Server.wPoints b <= Server.pageWidth pg /\
  0 <= Server.by_ b /\
  Server.by_ b + Server.hPoints b <= Server.pageHeight pg.
Proof.
  intros Hreg Hf Hpw Hph b.
  pose proof (SessionProofs.replay_wellSized events Hreg) as Hws.
  rewrite Forall_forall in Hws.
  destruct (Hws f Hf) as (Hx & Hy & Hw & Hh & Hxw & Hyh).
  subst b. unfold Server.pointBox.
  cbn [requestField Server.x Server.y Server.width Server.height
       Server.bx Server.by_ Server.wPoints Server.hPoints].
  pose proof (ServerMore.percent_nonneg (x f) _ Hx Hpw).
  pose proof (ServerMore.percent_nonneg (y f) _ Hy Hph).
  assert (Hw0 : 0 <= width f) by lra.
  assert (Hh0 : 0 <= height f) by lra.
  pose proof (ServerMore.percent_nonneg (width f) _ Hw0 Hpw).
  pose proof (ServerMore.percent_nonneg (height f) _ Hh0 Hph).
  pose proof (ServerMore.percent_sum_le (x f) (width f) _ Hxw Hpw).
  pose proof (ServerMore.percent_sum_le (y f) (height f) _ Hyh Hph).
  repeat split; lra.
Qed.

Lemma viewer_field_drawn_inside_witness :
  0 <= Server.bx (Server.pointBox
                    (requestField (nth 0 (Session.replay Session.calmSession)
                                     Session.edgeField))
                    (Server.mkPage 600 800 [])).
Proof.
  refine (proj1 (viewer_field_drawn_inside Session.calmSession _
                   (Server.mkPage 600 800 [])
                   SessionProofs.calmSession_regular _ _ _)).
  - vm_compute. now left.
  - vm_compute. discriminate.
  - vm_compute. discriminate.
Defined.

(** ** Opening the signed document *)

Lemma split_without sep s :
  ~ In sep (list_ascii_of_string s) -> split sep s = [s].
Proof.
  induction s as [| c s IH]; simpl; intros Hno; [reflexivity |].
  destruct (Ascii.eqb_spec c sep) as [E | E].
  - exfalso. apply Hno. now left.
  - rewrite IH; [reflexivity |]. intros Hin. apply Hno. now right.
Qed.

Lemma split_nonempty sep s : split sep s <> [].
Proof.
  destruct s as [| c s]; simpl; [discriminate |].
  destruct (Ascii.eqb c sep); [discriminate |].
  destruct (split sep s); discriminate.
Qed.

Lemma split_at_first sep pre s :
  ~ In sep (list_ascii_of_string pre) ->
  split sep (pre ++ String sep s) = pre :: split sep s.
Proof.
  induction pre as [| c pre IH]; simpl; intros Hno.
  - now rewrite Ascii.eqb_refl.
  - destruct (Ascii.eqb_spec c sep) as [E | E].
    + exfalso. apply Hno. now left.
    + rewrite IH; [reflexivity |]. intros Hin. apply Hno. now right.
Qed.

Lemma startsWith_append pre s : Server.startsWith (pre ++ s) pre = true.
Proof.
  unfold Server.startsWith. induction pre as [| c pre IH]; simpl.
  - now destruct s.
  - destruct (ascii_dec c c); [exact IH | contradiction].
Qed.

Lemma data_uri_payload s :
  ~ In ","%char (list_ascii_of_string s) ->
  nth_error (split "," ("data:application/pdf;base64," ++ s)) 1 = Some s.
Proof.
  intros Hno.
  change ("data:application/pdf;base64," ++ s)%string
    with ("data:application/pdf;base64" ++ String "," s)%string.
  rewrite split_at_first.
  - now rewrite split_without.
  - vm_compute. intuition discriminate.
Qed.

(** X23. After a successful signing, when the base64 text of the signed
    bytes has no comma and the browser decodes it back to those bytes, the
    button opens a blob of exactly the bytes the server saved and hashed;
    when the decoder throws it opens the data URI itself; after a failed
    signing there is no URL and nothing is opened. *)
Theorem opened_pdf_is_signed_pdf lib atob reqBody :
  (forall pages',
     Server.annotate lib (Server.parseBody lib reqBody) = Server.Done pages' ->
     let bytes := Server.save lib pages' in
     let base64 := Server.base64Encode lib bytes in
     ~ In ","%char (list_ascii_of_string base64) ->
     (atob base64 = Some bytes ->
      openSignedPdf atob (pdfUrlOf (Server.signPdf lib reqBody)) =
      Some (OpenBlob bytes)) /\
     (atob base64 = None ->
      openSignedPdf atob (pdfUrlOf (Server.signPdf lib reqBody)) =
      Some (OpenUrl ("data:application/pdf;base64," ++ base64)))) /\
  (forall e,
     Server.annotate lib (Server.parseBody lib reqBody) = Server.Thrown e ->
     openSignedPdf atob (pdfUrlOf (Server.signPdf lib reqBody)) = None).
Proof.
  split.
  - intros pages' Hrun bytes base64 Hno.
    unfold Server.signPdf. rewrite Hrun. fold bytes. fold base64.
    unfold pdfUrlOf, openSignedPdf.
    assert (Ht : Server.truthy (Some ("data:application/pdf;base64," ++ base64)%string)
                 = true) by reflexivity.
    rewrite Ht. cbn [Server.stringOf]. rewrite startsWith_append.
    rewrite (data_uri_payload base64 Hno).
    split; intros ->; reflexivity.
  - intros e Hrun. unfold Server.signPdf. rewrite Hrun. reflexivity.
Qed.

Lemma opened_pdf_is_signed_pdf_witness :
  openSignedPdf (fun s => Some (list_byte_of_string s))
    (pdfUrlOf (Server.signPdf Server.demoLibrary (signRequest "JVBERi0xLjcK" (run session))))
  = Some (OpenBlob []).
Proof.
  destruct (opened_pdf_is_signed_pdf Server.demoLibrary
              (fun s => Some (list_byte_of_string s))
              (signRequest "JVBERi0xLjcK" (run session))) as [Hok _].
  destruct (Hok [Server.mkPage 600 800 []]) as [Hblob _].
  - reflexivity.
  - simpl. tauto.
  - apply Hblob. reflexivity.
Defined.

End EndToEnd.
